(** * Offer counting of the FUB analytics dashboard

    A shallow embedding of [countOfferEvents] (dashboard/utils/dataProcessing.js)
    and of the constants it reads (dashboard/utils/constants.js), followed by
    the properties of the "Offers Made" specification that concern it.

    Modelling conventions.
    - A JavaScript number is met here only as an integral count of
      milliseconds or as NaN: type [number].
    - [new Date(change.changed_at)] is used by the function only through its
      time value, so a record carries that time value in [changed_at]
      ([NaN] is an Invalid Date).
    - [stage_from] and [stage_to] are strings, or absent ([None] stands for
      both [null] and [undefined]; [===] and [includes] treat them alike
      against string constants).
    - [person_id] is a string, as the call of [localeCompare] requires.
    - A plain object used as a table ([lastOfferTimeByLead], [leadJourneys])
      is the finite map of its own properties together with what every such
      object inherits from [Object.prototype]: see [Get].
    - [console.log] does not take part in the result and is left out. *)

From stdpp Require Import base list strings gmap sorting.
From Stdlib Require Import ZArith Lia.
From Stdlib Require OrderedTypeEx.

Local Open Scope string_scope.
Local Open Scope list_scope.

(** ** Numbers and Dates *)

Inductive number : Type :=
| NaN
| Num (z : Z).

Abbreviation Date := number.

#[global] Instance number_eq_dec : EqDecision number.
Proof. solve_decision. Defined.

(** [a - b] on time values: NaN when either side is NaN. *)
Definition number_sub (a b : number) : number :=
  match a, b with
  | Num x, Num y => Num (x - y)
  | _, _ => NaN
  end.

(** [a >= b] and [a <= b]: false when either side is NaN. *)
Definition number_ge (a b : number) : bool :=
  match a, b with
  | Num x, Num y => bool_decide (y ≤ x)%Z
  | _, _ => false
  end.

Definition number_le (a b : number) : bool :=
  match a, b with
  | Num x, Num y => bool_decide (x ≤ y)%Z
  | _, _ => false
  end.

(** ** dashboard/utils/constants.js *)

Definition PRE_OFFER_STAGES : list string :=
  [ "ACQ - Qualified";
    "ACQ - Needs Offer";
    "Qualified Phase 2 - Day 3 to 2 Weeks";
    "Qualified Phase 3 - 2 Weeks to 4 Weeks";
    "ACQ - Listed on Market";
    "ACQ - Went Cold - Drip Campaign";
    "ACQ - Price Motivated";
    "ACQ - Not Ready to Sell";
    "ACQ - New Lead";
    "ACQ - Contacted";
    "ACQ - Attempted Contact" ].

(** ** Records *)

Module Change.
Record t : Type := mk {
  person_id : string;
  first_name : string;
  last_name : string;
  stage_from : option string;
  stage_to : option string;
  changed_at : Date
}.
End Change.

Inductive OfferType : Type :=
| direct
| implicit_not_accepted
| implicit_contract_sent.

Module Offer.
Record t : Type := mk {
  person_id : string;
  first_name : string;
  last_name : string;
  stage_from : option string;
  stage_to : option string;
  changed_at : Date;
  offer_type : OfferType
}.
End Offer.

#[global] Instance OfferType_eq_dec : EqDecision OfferType.
Proof. solve_decision. Defined.

#[global] Instance Change_eq_dec : EqDecision Change.t.
Proof. solve_decision. Defined.

#[global] Instance Offer_eq_dec : EqDecision Offer.t.
Proof. solve_decision. Defined.

Record Result : Type := mkResult {
  count : nat;
  offerEvents : list Offer.t
}.

(** ** Array.prototype.sort

    The sort is stable, and a comparator result of NaN counts as +0
    (SortCompare).  For a consistent comparator the outcome is fixed by the
    language: the stable arrangement in comparator order, which the insertion
    below computes.  With an inconsistent comparator the order is left to the
    engine; the insertion is then one admissible outcome. *)

Section ArraySort.
Context {A : Type} (comparefn : A → A → number).

Definition SortCompare (x y : A) : Z :=
  match comparefn x y with
  | NaN => 0
  | Num v => v
  end.

Fixpoint sort_insert (x : A) (l : list A) : list A :=
  match l with
  | [] => [x]
  | y :: l' =>
      if bool_decide (SortCompare x y ≤ 0)%Z then x :: y :: l'
      else y :: sort_insert x l'
  end.

Definition Array_sort (l : list A) : list A := foldr sort_insert [] l.

End ArraySort.

(** ** countOfferEvents *)

Definition OFFERS_MADE_STAGE : string := "ACQ - Offers Made".
Definition OFFER_NOT_ACCEPTED_STAGE : string := "ACQ - Offer Not Accepted".
Definition CONTRACT_SENT_STAGE : string := "ACQ - Contract Sent".

(** [v === s] for a string constant [s]. *)
Definition strict_eq (v : option string) (s : string) : bool :=
  match v with
  | Some x => bool_decide (x = s)
  | None => false
  end.

(** [xs.includes(v)] on an array of strings. *)
Definition Array_includes (xs : list string) (v : option string) : bool :=
  match v with
  | Some x => bool_decide (x ∈ xs)
  | None => false
  end.

(** The date filter of lines 103-106. *)
Definition inDateRange (startDate endDate : Date) (change : Change.t) : bool :=
  let changeDate := Change.changed_at change in
  number_ge changeDate startDate && number_le changeDate endDate.

(** Lines 101-107: [startDate && endDate] holds when both are Date objects. *)
Definition filterChanges (stageChanges : list Change.t)
    (startDate endDate : option Date) : list Change.t :=
  match startDate, endDate with
  | Some s, Some e => filter (λ change, inDateRange s e change) stageChanges
  | _, _ => stageChanges
  end.

(** Lines 116-135: [None] is [isOfferEvent = false]. *)
Definition classify (change : Change.t) : option OfferType :=
  let stageTo := Change.stage_to change in
  let stageFrom := Change.stage_from change in
  if strict_eq stageTo OFFERS_MADE_STAGE then Some direct
  else if strict_eq stageTo OFFER_NOT_ACCEPTED_STAGE
          && Array_includes PRE_OFFER_STAGES stageFrom
       then Some implicit_not_accepted
  else if strict_eq stageTo CONTRACT_SENT_STAGE
          && Array_includes PRE_OFFER_STAGES stageFrom
       then Some implicit_contract_sent
  else None.

Definition toOffer (change : Change.t) (offerType : OfferType) : Offer.t :=
  {| Offer.person_id := Change.person_id change;
     Offer.first_name := Change.first_name change;
     Offer.last_name := Change.last_name change;
     Offer.stage_from := Change.stage_from change;
     Offer.stage_to := Change.stage_to change;
     Offer.changed_at := Change.changed_at change;
     Offer.offer_type := offerType |}.

(** The body of the first [forEach] (lines 112-148). *)
Definition pushIfOffer (offerEvents : list Offer.t) (change : Change.t)
    : list Offer.t :=
  match classify change with
  | Some offerType => offerEvents ++ [toOffer change offerType]
  | None => offerEvents
  end.

Definition identifyOfferEvents (filteredChanges : list Change.t) : list Offer.t :=
  foldl pushIfOffer [] filteredChanges.

(** [hoursDiff >= 24] with [hoursDiff = (eventTime - lastOfferTime) / (1000*60*60)].
    Time values are integers of magnitude at most 8.64e15, and 24 and
    24*3600000 are doubles: rounding the difference and the quotient is
    monotone, so the comparison on doubles agrees with the one on integers. *)
Definition hoursDiff_ge_24 (eventTime lastOfferTime : Date) : bool :=
  match number_sub eventTime lastOfferTime with
  | Num d => bool_decide (24 * (1000 * 60 * 60) ≤ d)%Z
  | NaN => false
  end.

(** ** Plain objects as tables

    An object made by [{}] has [Object.prototype] as its prototype, so
    reading [table[key]] finds, for a key the code has not set, whatever
    [Object.prototype] holds under that name: a function, or for "__proto__"
    the prototype object itself.  These values are truthy, are neither Dates
    nor arrays, and convert to the number NaN.  The code assigns under a key
    only after reading a falsy value under it or, in the deduplication loop,
    after a 24-hour test that such a value fails; hence never under one of
    these names: every assignment creates or overwrites an own property. *)

Definition ObjectPrototype_members : list string :=
  [ "constructor";
    "__defineGetter__";
    "__defineSetter__";
    "hasOwnProperty";
    "__lookupGetter__";
    "__lookupSetter__";
    "isPrototypeOf";
    "propertyIsEnumerable";
    "toString";
    "valueOf";
    "__proto__";
    "toLocaleString" ].

(** What [table[key]] evaluates to. *)
Inductive Property (V : Type) : Type :=
| Own (value : V)
| Inherited
| Undefined.

Arguments Own {V} value.
Arguments Inherited {V}.
Arguments Undefined {V}.

Definition Get {V : Type} (table : gmap string V) (key : string) : Property V :=
  match table !! key with
  | Some value => Own value
  | None =>
      if bool_decide (key ∈ ObjectPrototype_members) then Inherited else Undefined
  end.

Record DedupState : Type := mkDedup {
  dedupedOfferEvents : list Offer.t;
  lastOfferTimeByLead : gmap string Date
}.

(** The body of the second [forEach] (lines 162-182).  A stored Date is an
    object, hence truthy also when invalid: the first branch is taken exactly
    when [lastOfferTimeByLead[personId]] is undefined.  When the lead id names
    a member of [Object.prototype] the value read is that member: the second
    branch is taken, [eventTime - lastOfferTime] is NaN, [hoursDiff >= 24] is
    false, and the event is skipped. *)
Definition dedupStep (st : DedupState) (event : Offer.t) : DedupState :=
  let personId := Offer.person_id event in
  let eventTime := Offer.changed_at event in
  match Get (lastOfferTimeByLead st) personId with
  | Undefined =>
      {| dedupedOfferEvents := dedupedOfferEvents st ++ [event];
         lastOfferTimeByLead := <[personId := eventTime]> (lastOfferTimeByLead st) |}
  | Own lastOfferTime =>
      if hoursDiff_ge_24 eventTime lastOfferTime then
        {| dedupedOfferEvents := dedupedOfferEvents st ++ [event];
           lastOfferTimeByLead := <[personId := eventTime]> (lastOfferTimeByLead st) |}
      else st
  | Inherited => st
  end.

Definition dedupWalk (offerEvents : list Offer.t) : DedupState :=
  foldl dedupStep {| dedupedOfferEvents := []; lastOfferTimeByLead := ∅ |} offerEvents.

Section CountOfferEvents.
(** [String.prototype.localeCompare]: negative, zero or positive. *)
Variable localeCompare : string → string → Z.

(** The comparator of lines 151-156. *)
Definition compareFn (a b : Offer.t) : number :=
  if bool_decide (Offer.person_id a ≠ Offer.person_id b)
  then Num (localeCompare (Offer.person_id a) (Offer.person_id b))
  else number_sub (Offer.changed_at a) (Offer.changed_at b).

Definition sortedOfferEvents (stageChanges : list Change.t)
    (startDate endDate : option Date) : list Offer.t :=
  Array_sort compareFn
    (identifyOfferEvents (filterChanges stageChanges startDate endDate)).

Definition countOfferEvents (stageChanges : list Change.t)
    (startDate endDate : option Date) : Result :=
  let filteredChanges := filterChanges stageChanges startDate endDate in
  let offerEvents := identifyOfferEvents filteredChanges in
  let offerEvents := Array_sort compareFn offerEvents in
  let dedupedOfferEvents := dedupedOfferEvents (dedupWalk offerEvents) in
  {| count := length dedupedOfferEvents;
     offerEvents := dedupedOfferEvents |}.

End CountOfferEvents.

(** A collation of lead ids by code units, used to run the function. *)
Definition codeUnitCompare (a b : string) : Z :=
  match String.compare a b with
  | Lt => -1
  | Eq => 0
  | Gt => 1
  end.

(** * Vocabulary of the properties *)

(** ** The two loops as list functions *)

(** What one record contributes to [offerEvents]. *)
Definition offerOf (change : Change.t) : option Offer.t :=
  toOffer change <$> classify change.

(** The second loop, started from a given table: the events it appends. *)
Fixpoint keptFrom (last : gmap string Date) (events : list Offer.t)
    : list Offer.t :=
  match events with
  | [] => []
  | event :: rest =>
      let personId := Offer.person_id event in
      let eventTime := Offer.changed_at event in
      match Get last personId with
      | Undefined => event :: keptFrom (<[personId := eventTime]> last) rest
      | Own lastOfferTime =>
          if hoursDiff_ge_24 eventTime lastOfferTime
          then event :: keptFrom (<[personId := eventTime]> last) rest
          else keptFrom last rest
      | Inherited => keptFrom last rest
      end
  end.

(** ** Stages and leads *)

(** [stageFrom] is one of the pre-offer stages. *)
Definition preOffer (stageFrom : option string) : Prop :=
  ∃ s, stageFrom = Some s ∧ s ∈ PRE_OFFER_STAGES.

Definition ofLead (p : string) (event : Offer.t) : Prop :=
  Offer.person_id event = p.

(** The id is not the name of a member of [Object.prototype]. *)
Definition ordinaryId (p : string) : Prop := p ∉ ObjectPrototype_members.

#[global] Instance ordinaryId_dec p : Decision (ordinaryId p).
Proof. unfold ordinaryId. apply _. Defined.

#[global] Instance ofLead_dec p event : Decision (ofLead p event).
Proof. unfold ofLead. apply _. Defined.

(** ** The deduplicator in the words of the specification

    Section 4.2, step 3, on the sequence of one lead, times in milliseconds:
    the first event is kept; afterwards an event is kept when it is at least
    24 hours after the last kept one, which it then replaces as anchor. *)

Definition atLeast24hAfter (changed_at last_kept_time : Date) : bool :=
  match changed_at, last_kept_time with
  | Num t, Num k => bool_decide (k + 24 * 3600 * 1000 ≤ t)%Z
  | _, _ => false
  end.

Fixpoint walkLead (last_kept_time : option Date) (events : list Offer.t)
    : list Offer.t :=
  match events with
  | [] => []
  | event :: rest =>
      match last_kept_time with
      | None => event :: walkLead (Some (Offer.changed_at event)) rest
      | Some k =>
          if atLeast24hAfter (Offer.changed_at event) k
          then event :: walkLead (Some (Offer.changed_at event)) rest
          else walkLead (Some k) rest
      end
  end.

(** Two kept events in a row: both times are valid and 24 hours apart. *)
Definition apart24h (a b : Offer.t) : Prop :=
  ∃ ta tb, Offer.changed_at a = Num ta ∧ Offer.changed_at b = Num tb
    ∧ (24 * 3600 * 1000 ≤ tb - ta)%Z.

(** Whatever the walk keeps first is 24 hours after the anchor. *)
Definition headAfter (anchor : option Date) (kept : list Offer.t) : Prop :=
  match anchor, kept with
  | Some k, event :: _ => atLeast24hAfter (Offer.changed_at event) k = true
  | _, _ => True
  end.

(** ** Orders *)

(** [x] may stand before [y] after sorting with [cmp]. *)
Definition sortLe {A} (cmp : A → A → number) (x y : A) : Prop :=
  (SortCompare cmp x y ≤ 0)%Z.




(** The timestamp is a valid Date. *)
Definition validTime (event : Offer.t) : Prop := Offer.changed_at event ≠ NaN.


Definition parseable (change : Change.t) : Prop := Change.changed_at change ≠ NaN.

#[global] Instance parseable_dec change : Decision (parseable change).
Proof. unfold parseable. apply _. Defined.



(** ** Two requirements as the specification words them *)


(** A record without [stage_to], or whose [changed_at] does not parse. *)
Definition malformed (change : Change.t) : Prop :=
  Change.stage_to change = None ∨ Change.changed_at change = NaN.

(** Tolerance of malformed records: the record is no offer event, and the
    result is the one obtained without it. *)
Definition malformedSkipped (lc : string → string → Z) : Prop :=
  ∀ before bad after s e,
    malformed bad →
    classify bad = None
    ∧ countOfferEvents lc (before ++ bad :: after) s e
      = countOfferEvents lc (before ++ after) s e.

(** ** Sample records *)

(** A direct offer of lead [p], [hours] after a fixed instant. *)
Definition offerAt (p : string) (hours : Z) : Change.t :=
  Change.mk p "Lee" "Ortiz" (Some "ACQ - Needs Offer") (Some OFFERS_MADE_STAGE)
    (Num (1770000000000 + hours * 3600000)).

Definition keptAt (p : string) (hours : Z) : Offer.t :=
  toOffer (offerAt p hours) direct.

(** A first recorded transition, straight into "ACQ - Offer Not Accepted". *)
Definition firstTransitionRejected : Change.t :=
  Change.mk "lead-7" "Dana" "Reyes" None (Some OFFER_NOT_ACCEPTED_STAGE)
    (Num 1770000000000).



(** A direct offer whose [changed_at] does not parse. *)
Definition undatedOffer : Change.t :=
  Change.mk "X" "Lee" "Ortiz" (Some "ACQ - Needs Offer") (Some OFFERS_MADE_STAGE) NaN.

(** A record without [stage_to]. *)
Definition noStageTo : Change.t :=
  Change.mk "X" "Lee" "Ortiz" (Some "ACQ - Needs Offer") None (Num 1770000000000).

(** * Further functions of dataProcessing.js *)

(** ** isThrowawayLead (lines 428-455) *)

Definition qualifiedStages : list string :=
  [ "ACQ - Qualified";
    "Qualified Phase 2 - Day 3 to 2 Weeks";
    "Qualified Phase 3 - 2 Weeks to 4 Weeks" ].

Definition throwawayStages : list string :=
  [ "ACQ - Price Motivated";
    "ACQ - Not Interested";
    "ACQ - Not Ready to Sell";
    "ACQ - Dead / DNC" ].

Definition isThrowawayLead (change : Change.t) : bool :=
  Array_includes qualifiedStages (Change.stage_from change)
  && Array_includes throwawayStages (Change.stage_to change).

(** ** Dates in Eastern Time

    [new Intl.DateTimeFormat('en-CA', {timeZone: 'America/New_York', year,
    month, day}).format(d)] gives the YYYY-MM-DD string of a valid time value
    and throws a RangeError on an Invalid Date.  The time zone table belongs
    to the host: the formatting of valid time values is a parameter, and
    [None] stands for the exception. *)

Section EasternTime.
Variable easternDateStr : Z → string.

Definition formatEastern (d : Date) : option string :=
  match d with
  | NaN => None
  | Num t => Some (easternDateStr t)
  end.

(** The record falls on the Eastern date [dateStr]. *)
Definition onEasternDate (dateStr : string) (change : Change.t) : Prop :=
  formatEastern (Change.changed_at change) = Some dateStr.

#[global] Instance onEasternDate_dec dateStr change :
  Decision (onEasternDate dateStr change).
Proof. unfold onEasternDate. apply _. Defined.

Definition offerOnEasternDate (dateStr : string) (event : Offer.t) : Prop :=
  formatEastern (Offer.changed_at event) = Some dateStr.

#[global] Instance offerOnEasternDate_dec dateStr event :
  Decision (offerOnEasternDate dateStr event).
Proof. unfold offerOnEasternDate. apply _. Defined.

(** ** getOfferEventsForDate (lines 205-259)

    The body of its [forEach]: the date is formatted first, then the record
    is classified by the same three rules as in [countOfferEvents] (lines
    231-255 repeat lines 116-147). *)

Definition pushIfOfferOnDate (targetDateStr : string)
    (offerEvents : list Offer.t) (change : Change.t) : option (list Offer.t) :=
  match formatEastern (Change.changed_at change) with
  | None => None
  | Some easternDate =>
      if bool_decide (easternDate ≠ targetDateStr) then Some offerEvents
      else Some (pushIfOffer offerEvents change)
  end.

Definition getOfferEventsForDate (stageChanges : list Change.t)
    (targetDateStr : string) : option (list Offer.t) :=
  foldl (λ acc change, offerEvents ← acc;
                       pushIfOfferOnDate targetDateStr offerEvents change)
    (Some []) stageChanges.

End EasternTime.

(** ** Daily buckets of processSupabaseData (lines 648-660, 686-734) *)

Module Day.
Record t : Type := mk {
  date : string;
  qualified : nat;
  offers : nat;
  priceMotivated : nat;
  throwawayLeads : nat;
  dateFormatted : string
}.
End Day.

(** [dayData.qualified++] and its three siblings. *)
Definition incQualified (d : Day.t) : Day.t :=
  Day.mk (Day.date d) (S (Day.qualified d)) (Day.offers d)
    (Day.priceMotivated d) (Day.throwawayLeads d) (Day.dateFormatted d).

Definition incOffers (d : Day.t) : Day.t :=
  Day.mk (Day.date d) (Day.qualified d) (S (Day.offers d))
    (Day.priceMotivated d) (Day.throwawayLeads d) (Day.dateFormatted d).

Definition incPriceMotivated (d : Day.t) : Day.t :=
  Day.mk (Day.date d) (Day.qualified d) (Day.offers d)
    (S (Day.priceMotivated d)) (Day.throwawayLeads d) (Day.dateFormatted d).

Definition incThrowawayLeads (d : Day.t) : Day.t :=
  Day.mk (Day.date d) (Day.qualified d) (Day.offers d)
    (Day.priceMotivated d) (S (Day.throwawayLeads d)) (Day.dateFormatted d).

(** [const dayData = dailyData.find(d => d.date === dateStr); if (dayData)
    update(dayData)]: the first bucket of that date is updated in place;
    without such a bucket nothing changes. *)
Fixpoint updateFound (dateStr : string) (update : Day.t → Day.t)
    (dailyData : list Day.t) : list Day.t :=
  match dailyData with
  | [] => []
  | d :: rest =>
      if bool_decide (Day.date d = dateStr) then update d :: rest
      else d :: updateFound dateStr update rest
  end.

(** [dailyData.reduce((sum, day) => sum + (day.field || 0), 0)]; a counter
    is a number, for which [|| 0] changes nothing. *)
Definition reduceSum (field : Day.t → nat) (dailyData : list Day.t) : nat :=
  foldl (λ sum day, sum + field day) 0 dailyData.

Section DailyBuckets.
Variable easternDateStr : Z → string.

(** The body of the loop of lines 686-717. *)
Definition tallyChange (dailyData : list Day.t) (change : Change.t)
    : option (list Day.t) :=
  match formatEastern easternDateStr (Change.changed_at change) with
  | None => None
  | Some changeDate =>
      Some
        (if strict_eq (Change.stage_to change) "ACQ - Qualified"
         then updateFound changeDate incQualified dailyData
         else if strict_eq (Change.stage_to change) "ACQ - Price Motivated"
         then updateFound changeDate incPriceMotivated dailyData
         else if isThrowawayLead change
         then updateFound changeDate incThrowawayLeads dailyData
         else dailyData)
  end.

Definition tallyStageChanges (dailyData : list Day.t)
    (requestedPeriodChanges : list Change.t) : option (list Day.t) :=
  foldl (λ acc change, dailyData ← acc; tallyChange dailyData change)
    (Some dailyData) requestedPeriodChanges.

(** The body of the loop of lines 720-734. *)
Definition addOfferEvent (dailyData : list Day.t) (offerEvent : Offer.t)
    : option (list Day.t) :=
  match formatEastern easternDateStr (Offer.changed_at offerEvent) with
  | None => None
  | Some easternDate => Some (updateFound easternDate incOffers dailyData)
  end.

Definition addOfferEvents (dailyData : list Day.t)
    (dedupedOfferEvents : list Offer.t) : option (list Day.t) :=
  foldl (λ acc offerEvent, dailyData ← acc; addOfferEvent dailyData offerEvent)
    (Some dailyData) dedupedOfferEvents.

End DailyBuckets.

(** Lines 678-734 of processSupabaseData, from the buckets as created by
    lines 635-661: the offers are counted once for the summary
    ([offersTotal], line 783) and once per day for the chart. *)
Definition dailyMetrics (localeCompare : string → string → Z)
    (easternDateStr : Z → string) (dailyData : list Day.t)
    (requestedPeriodChanges : list Change.t) : option (nat * list Day.t) :=
  let counted := countOfferEvents localeCompare requestedPeriodChanges None None in
  let totalOfferCount := count counted in
  let dedupedOfferEvents := offerEvents counted in
  dailyData ← tallyStageChanges easternDateStr dailyData requestedPeriodChanges;
  dailyData ← addOfferEvents easternDateStr dailyData dedupedOfferEvents;
  Some (totalOfferCount, dailyData).

(** A bucket of the given date exists. *)
Definition hasBucket (dailyData : list Day.t) (dateStr : string) : Prop :=
  dateStr ∈ Day.date <$> dailyData.

#[global] Instance hasBucket_dec dailyData dateStr :
  Decision (hasBucket dailyData dateStr).
Proof. unfold hasBucket. apply _. Defined.

(** The Eastern dates of 1 to 4 February 2026, for running examples
    (Eastern Standard Time, midnight at 05:00 UTC). *)
Definition february2026 (t : Z) : string :=
  if bool_decide (t < 1770008400000)%Z then "2026-02-01"
  else if bool_decide (t < 1770094800000)%Z then "2026-02-02"
  else if bool_decide (t < 1770181200000)%Z then "2026-02-03"
  else "2026-02-04".

(** The buckets as lines 648-660 create them: every counter is 0. *)
Definition freshBuckets (dailyData : list Day.t) : Prop :=
  Forall (λ d, Day.qualified d = 0 ∧ Day.offers d = 0
               ∧ Day.priceMotivated d = 0 ∧ Day.throwawayLeads d = 0) dailyData.

(** The date formats and has a bucket. *)
Definition dateBucketed (easternDateStr : Z → string) (dailyData : list Day.t)
    (d : Date) : Prop :=
  match formatEastern easternDateStr d with
  | Some dateStr => hasBucket dailyData dateStr
  | None => False
  end.

#[global] Instance dateBucketed_dec eds dailyData d :
  Decision (dateBucketed eds dailyData d).
Proof. unfold dateBucketed. destruct (formatEastern eds d); apply _. Defined.

(** Empty buckets for the first two days of February 2026. *)
Definition februaryBuckets : list Day.t :=
  [ Day.mk "2026-02-01" 0 0 0 0 "Sun, Feb 1";
    Day.mk "2026-02-02" 0 0 0 0 "Mon, Feb 2" ].

(** What a record of the requested period adds to the day chart (the
    conditions of lines 702-709, each under the failure of the ones before;
    "ACQ - Qualified" is no throwaway stage). *)
Definition chartQualified (change : Change.t) : Prop :=
  Change.stage_to change = Some "ACQ - Qualified".

Definition chartPriceMotivated (change : Change.t) : Prop :=
  Change.stage_to change = Some "ACQ - Price Motivated".

Definition chartThrowaway (change : Change.t) : Prop :=
  isThrowawayLead change = true
  ∧ Change.stage_to change ≠ Some "ACQ - Price Motivated".

#[global] Instance chartQualified_dec change : Decision (chartQualified change).
Proof. unfold chartQualified. apply _. Defined.

#[global] Instance chartPriceMotivated_dec change :
  Decision (chartPriceMotivated change).
Proof. unfold chartPriceMotivated. apply _. Defined.

#[global] Instance chartThrowaway_dec change : Decision (chartThrowaway change).
Proof. unfold chartThrowaway. apply _. Defined.

(** The record's date has a bucket. *)
Definition changeBucketed (easternDateStr : Z → string) (dailyData : list Day.t)
    (change : Change.t) : Prop :=
  dateBucketed easternDateStr dailyData (Change.changed_at change).

#[global] Instance changeBucketed_dec eds dailyData change :
  Decision (changeBucketed eds dailyData change).
Proof. unfold changeBucketed. apply _. Defined.

Definition offerBucketed (easternDateStr : Z → string) (dailyData : list Day.t)
    (event : Offer.t) : Prop :=
  dateBucketed easternDateStr dailyData (Offer.changed_at event).

#[global] Instance offerBucketed_dec eds dailyData event :
  Decision (offerBucketed eds dailyData event).
Proof. unfold offerBucketed. apply _. Defined.

(** Two throwaway transitions. *)
Definition qualifiedThenDead : Change.t :=
  Change.mk "lead-9" "Sam" "Hill" (Some "ACQ - Qualified") (Some "ACQ - Dead / DNC")
    (Num 1770000000000).

Definition qualifiedThenPriceMotivated : Change.t :=
  Change.mk "lead-3" "Kim" "Park" (Some "ACQ - Qualified")
    (Some "ACQ - Price Motivated") (Num 1770000000000).

(** ** Date arithmetic (ECMAScript, Date objects)

    A valid Date is its time value, in milliseconds.  The conversions between
    UTC and local time belong to the host, as does the calendar; they are
    parameters: [LocalTime] and [UTC] as in the language definition, and
    [monthStart d], the day number of the first day of the month of day
    [d].  The rest is the language's arithmetic: [Day], [TimeWithinDay],
    [WeekDay], [DateFromTime], [MakeDay] on the month of the Date and
    [MakeDate].  Results are taken to stay within the range of time values
    (TimeClip is the identity). *)

Definition msPerDay : Z := 86400000.

Definition Day (t : Z) : Z := (t `div` msPerDay)%Z.

Definition TimeWithinDay (t : Z) : Z := (t `mod` msPerDay)%Z.

Definition WeekDay (t : Z) : Z := ((Day t + 4) `mod` 7)%Z.

Definition MakeDate (day time : Z) : Z := (day * msPerDay + time)%Z.

Section HostDate.
Variable LocalTime : Z → Z.
Variable UTC : Z → Z.
Variable monthStart : Z → Z.

Definition DateFromTime (t : Z) : Z := (Day t - monthStart (Day t) + 1)%Z.

(** [MakeDay(YearFromTime(t), MonthFromTime(t), dt)]. *)
Definition MakeDayInMonth (t dt : Z) : Z := (monthStart (Day t) + dt - 1)%Z.

Definition getDay (d : Z) : Z := WeekDay (LocalTime d).

Definition getDate (d : Z) : Z := DateFromTime (LocalTime d).

Definition setDate (d dt : Z) : Z :=
  let t := LocalTime d in
  UTC (MakeDate (MakeDayInMonth t dt) (TimeWithinDay t)).

(** [d.setHours(0, 0, 0, 0)]. *)
Definition setHoursZero (d : Z) : Z :=
  let t := LocalTime d in
  UTC (MakeDate (Day t) 0).

(** getWeekStart (lines 7-14), on a Date. *)
Definition getWeekStart (date : Z) : Z :=
  let d := date in
  let day := getDay d in
  let diff := (getDate d - ((day + 6) `mod` 7))%Z in
  let d := setDate d diff in
  let d := setHoursZero d in
  d.

(** getBusinessDays (lines 58-70).  [Math.ceil] of the quotient is the
    ceiling of the exact quotient for spans below 2^27 days, where the
    rounding of the division cannot reach an integer. *)
Definition getBusinessDays (startDate endDate : Z) : nat :=
  let totalDays := (- ((- (endDate - startDate)) `div` (1000 * 60 * 60 * 24)))%Z in
  foldl
    (λ businessDays i,
       let date := startDate in
       let date := setDate date (getDate date + i) in
       let dayOfWeek := getDay date in
       if bool_decide (dayOfWeek ≠ 0%Z) && bool_decide (dayOfWeek ≠ 6%Z)
       then S businessDays else businessDays)
    0 (seqZ 0 totalDays).

End HostDate.

(** A host in Eastern Standard Time throughout, and the months around
    February 2026, for running examples. *)
Definition estLocalTime (t : Z) : Z := (t - 18000000)%Z.

Definition estUTC (t : Z) : Z := (t + 18000000)%Z.

Definition monthStart2026 (day : Z) : Z :=
  if bool_decide (day < 20485)%Z then 20454%Z
  else if bool_decide (day < 20513)%Z then 20485%Z
  else 20513%Z.

(** ** calculateAvgTimeToOffer (lines 263-340)

    The time differences are kept in milliseconds: the [timeDiff] of line
    314 is the double nearest to such a difference divided by 86400000, and
    [timeDiff >= 0] holds exactly when the difference is not negative.  The
    mean and its rounding to one decimal are floating-point operations on
    these quotients and are left as [RoundedMean].  The object
    [leadJourneys] is a table read with [Get]; the function ends in a
    TypeError, here [None], when a value read from it under the name of a
    member of [Object.prototype] is used as an array. *)

Module Journey.
Record t : Type := mk {
  stage : option string;
  timestamp : Date;
  first_name : string;
  last_name : string
}.
End Journey.

Inductive Average : Type :=
| ReturnsZero
| RoundedMean (timesToOffer : list Z).

Definition journeyEntry (change : Change.t) : Journey.t :=
  {| Journey.stage := Change.stage_to change;
     Journey.timestamp := Change.changed_at change;
     Journey.first_name := Change.first_name change;
     Journey.last_name := Change.last_name change |}.

(** [array.forEach(body)] with the state the body updates, for a body that
    may throw: the first exception ends the loop. *)
Fixpoint forEach {S A : Type} (body : S → A → option S) (st : S) (array : list A)
    : option S :=
  match array with
  | [] => Some st
  | x :: rest =>
      match body st x with
      | Some st' => forEach body st' rest
      | None => None
      end
  end.

(** The body of the loop of lines 280-291; an array is truthy even when
    empty.  Under a lead id that names a member of [Object.prototype] the
    value read at line 282 is that member, which is truthy, so that no array
    is stored; at line 285 it has no [push], and the call throws a
    TypeError. *)
Definition addToJourney (leadJourneys : gmap string (list Journey.t))
    (change : Change.t) : option (gmap string (list Journey.t)) :=
  let personId := Change.person_id change in
  let leadJourneys :=
    match Get leadJourneys personId with
    | Undefined => <[personId := []]> leadJourneys
    | Own _ | Inherited => leadJourneys
    end in
  match Get leadJourneys personId with
  | Own journey =>
      Some (<[personId := journey ++ [journeyEntry change]]> leadJourneys)
  | Inherited | Undefined => None
  end.

(** The comparator of line 301. *)
Definition byTimestamp (a b : Journey.t) : number :=
  number_sub (Journey.timestamp a) (Journey.timestamp b).

(** Lines 304-310: the loop stops at the first entry of stage
    "ACQ - Qualified". *)
Fixpoint firstQualified (journey : list Journey.t) : option Date :=
  match journey with
  | [] => None
  | stage :: rest =>
      if strict_eq (Journey.stage stage) "ACQ - Qualified"
      then Some (Journey.timestamp stage)
      else firstQualified rest
  end.

Record AvgState : Type := mkAvg {
  leadJourneys : gmap string (list Journey.t);
  timesToOffer : list Z
}.

(** The body of the loop of lines 296-325.  The journey is sorted in place,
    so the sorted array stays in [leadJourneys]; a found [qualifiedTime] is a
    Date object, hence truthy.  With no journey stored, [journey] is a fresh
    empty array and nothing is found.  A member of [Object.prototype] read
    at line 298 is truthy and has no [sort]: line 301 throws a TypeError. *)
Definition timeToOfferStep (st : AvgState) (offer : Change.t) : option AvgState :=
  let personId := Change.person_id offer in
  match Get (leadJourneys st) personId with
  | Undefined => Some st
  | Inherited => None
  | Own journey =>
      let journey := Array_sort byTimestamp journey in
      Some
        {| leadJourneys := <[personId := journey]> (leadJourneys st);
           timesToOffer :=
             match firstQualified journey with
             | None => timesToOffer st
             | Some qualifiedTime =>
                 let offerTime := Change.changed_at offer in
                 match number_sub offerTime qualifiedTime with
                 | Num timeDiff =>
                     if bool_decide (0 ≤ timeDiff)%Z
                     then timesToOffer st ++ [timeDiff]
                     else timesToOffer st
                 | NaN => timesToOffer st
                 end
             end |}
  end.

(** [None] is the TypeError. *)
Definition calculateAvgTimeToOffer (stageChanges : list Change.t)
    : option Average :=
  let offersInPeriod :=
    filter (λ change, strict_eq (Change.stage_to change) "ACQ - Offers Made")
      stageChanges in
  if bool_decide (length offersInPeriod = 0) then Some ReturnsZero
  else
    match forEach addToJourney ∅ stageChanges with
    | None => None
    | Some leadJourneys =>
        match
          forEach timeToOfferStep
            {| leadJourneys := leadJourneys; timesToOffer := [] |} offersInPeriod
        with
        | None => None
        | Some st =>
            if bool_decide (length (timesToOffer st) = 0) then Some ReturnsZero
            else Some (RoundedMean (timesToOffer st))
        end
    end.

(** The times at which lead [p] entered "ACQ - Qualified". *)
Definition qualifiedTimes (stageChanges : list Change.t) (p : string) : list Z :=
  omap (λ change,
          if bool_decide (Change.person_id change = p
                          ∧ Change.stage_to change = Some "ACQ - Qualified")
          then match Change.changed_at change with
               | Num t => Some t
               | NaN => None
               end
          else None) stageChanges.

Definition earliest (times : list Z) : option Z :=
  match times with
  | [] => None
  | t :: rest => Some (foldr Z.min t rest)
  end.

(** What an offer contributes to the mean: the time since the lead's
    earliest qualification, when that is not after the offer. *)
Definition sinceQualified (stageChanges : list Change.t) (offer : Change.t)
    : option Z :=
  match Change.changed_at offer,
        earliest (qualifiedTimes stageChanges (Change.person_id offer)) with
  | Num offerTime, Some qualifiedTime =>
      if bool_decide (qualifiedTime ≤ offerTime)%Z
      then Some (offerTime - qualifiedTime)%Z else None
  | _, _ => None
  end.

(** A lead qualified, offered 50 hours later, and one offered without
    qualification. *)
Definition qualifiedAt (p : string) (hours : Z) : Change.t :=
  Change.mk p "Lee" "Ortiz" (Some "ACQ - New Lead") (Some "ACQ - Qualified")
    (Num (1770000000000 + hours * 3600000)).

(** The times of the "ACQ - Qualified" entries of a journey. *)
Definition journeyQualifiedTimes (journey : list Journey.t) : list Z :=
  omap (λ entry,
          if strict_eq (Journey.stage entry) "ACQ - Qualified"
          then match Journey.timestamp entry with
               | Num t => Some t
               | NaN => None
               end
          else None) journey.

Definition validEntry (entry : Journey.t) : Prop := Journey.timestamp entry ≠ NaN.

Definition ofPerson (p : string) (change : Change.t) : Prop :=
  Change.person_id change = p.

#[global] Instance ofPerson_dec p change : Decision (ofPerson p change).
Proof. unfold ofPerson. apply _. Defined.

(** The journeys of the leads, each up to the order of its entries. *)
Definition sameJourneys (lj lj0 : gmap string (list Journey.t)) : Prop :=
  ∀ p, option_Forall2 Permutation (lj !! p) (lj0 !! p).

(** The table holds, for every lead of the records, its entries in the
    order of the records, and nothing else. *)
Definition journeysOf (stageChanges : list Change.t)
    (lj : gmap string (list Journey.t)) : Prop :=
  ∀ p, lj !! p = match filter (ofPerson p) stageChanges with
                 | [] => None
                 | l => Some (journeyEntry <$> l)
                 end.

(** No record of a lead whose id names a member of [Object.prototype]. *)
Definition ordinaryIds (stageChanges : list Change.t) : Prop :=
  Forall (λ change, ordinaryId (Change.person_id change)) stageChanges.

(** The table has no own property under the name of a member of
    [Object.prototype]. *)
Definition ordinaryKeys {V} (table : gmap string V) : Prop :=
  ∀ p, ¬ ordinaryId p → table !! p = None.

(** No entry of any journey is of stage "ACQ - Qualified". *)
Definition neverQualified (lj : gmap string (list Journey.t)) : Prop :=
  ∀ p journey, lj !! p = Some journey →
    Forall (λ entry, Journey.stage entry ≠ Some "ACQ - Qualified") journey.

(** * Properties *)

(** ** The two loops as list functions *)

Lemma foldl_pushIfOffer acc changes :
  foldl pushIfOffer acc changes = acc ++ omap offerOf changes.
Proof.
  revert acc. induction changes as [|c changes IH]; intros acc; simpl.
  - by rewrite app_nil_r.
  - rewrite IH. unfold pushIfOffer, offerOf.
    destruct (classify c); simpl; [by rewrite <- app_assoc | done].
Qed.

Lemma identifyOfferEvents_omap changes :
  identifyOfferEvents changes = omap offerOf changes.
Proof. apply (foldl_pushIfOffer []). Qed.

Lemma foldl_dedupStep st events :
  dedupedOfferEvents (foldl dedupStep st events)
  = dedupedOfferEvents st ++ keptFrom (lastOfferTimeByLead st) events.
Proof.
  revert st. induction events as [|ev events IH]; intros st; simpl.
  - by rewrite app_nil_r.
  - rewrite IH. unfold dedupStep.
    destruct (Get (lastOfferTimeByLead st) (Offer.person_id ev)) as [t| |]; simpl.
    + destruct (hoursDiff_ge_24 _ _); simpl; [by rewrite <- app_assoc | done].
    + done.
    + by rewrite <- app_assoc.
Qed.

Lemma dedupWalk_keptFrom events :
  dedupedOfferEvents (dedupWalk events) = keptFrom ∅ events.
Proof. unfold dedupWalk. by rewrite foldl_dedupStep. Qed.

Lemma offerEvents_unfold lc changes s e :
  offerEvents (countOfferEvents lc changes s e)
  = keptFrom ∅ (sortedOfferEvents lc changes s e).
Proof. unfold countOfferEvents, sortedOfferEvents. simpl. apply dedupWalk_keptFrom. Qed.

Lemma count_unfold lc changes s e :
  count (countOfferEvents lc changes s e)
  = length (offerEvents (countOfferEvents lc changes s e)).
Proof. reflexivity. Qed.

Lemma keptFrom_sublist last events : keptFrom last events `sublist_of` events.
Proof.
  revert last. induction events as [|ev events IH]; intros last; simpl; [done|].
  destruct (Get last (Offer.person_id ev)) as [t| |].
  - destruct (hoursDiff_ge_24 _ _).
    + by apply sublist_skip.
    + by apply sublist_cons.
  - by apply sublist_cons.
  - by apply sublist_skip.
Qed.

(** ** The sort rearranges *)

Lemma sort_insert_Permutation {A} (cmp : A → A → number) x l :
  sort_insert cmp x l ≡ₚ x :: l.
Proof.
  induction l as [|y l IH]; simpl; [done|].
  case_bool_decide; [done|]. rewrite IH. apply Permutation_swap.
Qed.

Lemma Array_sort_Permutation {A} (cmp : A → A → number) l :
  Array_sort cmp l ≡ₚ l.
Proof.
  induction l as [|x l IH]; simpl; [done|].
  by rewrite sort_insert_Permutation, IH.
Qed.

(** ** Classification *)

Lemma strict_eq_true v s : strict_eq v s = true ↔ v = Some s.
Proof.
  destruct v as [x|]; simpl; [|done].
  rewrite bool_decide_eq_true. split; [by intros -> | by intros [= ->]].
Qed.

Lemma Array_includes_true xs v :
  Array_includes xs v = true ↔ ∃ s, v = Some s ∧ s ∈ xs.
Proof.
  destruct v as [x|]; simpl.
  - rewrite bool_decide_eq_true. split; [by eauto | by intros (s & [= ->] & ?)].
  - split; [done | by intros (s & ? & ?)].
Qed.

Lemma includes_preOffer v : Array_includes PRE_OFFER_STAGES v = true ↔ preOffer v.
Proof. apply Array_includes_true. Qed.

Lemma strict_eq_false v s : strict_eq v s = false ↔ v ≠ Some s.
Proof. rewrite <- strict_eq_true. by destruct (strict_eq v s). Qed.

Lemma includes_not_preOffer v :
  Array_includes PRE_OFFER_STAGES v = false ↔ ¬ preOffer v.
Proof. rewrite <- includes_preOffer. by destruct (Array_includes _ v). Qed.

Ltac classify_cases change :=
  unfold classify;
  destruct (strict_eq (Change.stage_to change) OFFERS_MADE_STAGE) eqn:Hom;
  destruct (strict_eq (Change.stage_to change) OFFER_NOT_ACCEPTED_STAGE) eqn:Hona;
  destruct (strict_eq (Change.stage_to change) CONTRACT_SENT_STAGE) eqn:Hcs;
  destruct (Array_includes PRE_OFFER_STAGES (Change.stage_from change)) eqn:Hpre;
  simpl;
  repeat match goal with
  | H : strict_eq _ _ = true |- _ => apply strict_eq_true in H
  | H : strict_eq _ _ = false |- _ => apply strict_eq_false in H
  | H : Array_includes _ _ = true |- _ => apply includes_preOffer in H
  | H : Array_includes _ _ = false |- _ => apply includes_not_preOffer in H
  end.

Lemma classify_direct change :
  classify change = Some direct ↔ Change.stage_to change = Some OFFERS_MADE_STAGE.
Proof. classify_cases change; intuition congruence. Qed.

Lemma classify_implicit_not_accepted change :
  classify change = Some implicit_not_accepted ↔
  Change.stage_to change ≠ Some OFFERS_MADE_STAGE
  ∧ Change.stage_to change = Some OFFER_NOT_ACCEPTED_STAGE
  ∧ preOffer (Change.stage_from change).
Proof. classify_cases change; intuition congruence. Qed.

Lemma classify_implicit_contract_sent change :
  classify change = Some implicit_contract_sent ↔
  Change.stage_to change ≠ Some OFFERS_MADE_STAGE
  ∧ ¬ (Change.stage_to change = Some OFFER_NOT_ACCEPTED_STAGE
       ∧ preOffer (Change.stage_from change))
  ∧ Change.stage_to change = Some CONTRACT_SENT_STAGE
  ∧ preOffer (Change.stage_from change).
Proof. classify_cases change; intuition congruence. Qed.

Lemma classify_not_offer change :
  classify change = None ↔
  Change.stage_to change ≠ Some OFFERS_MADE_STAGE
  ∧ ¬ (Change.stage_to change = Some OFFER_NOT_ACCEPTED_STAGE
       ∧ preOffer (Change.stage_from change))
  ∧ ¬ (Change.stage_to change = Some CONTRACT_SENT_STAGE
       ∧ preOffer (Change.stage_from change)).
Proof. classify_cases change; intuition congruence. Qed.

Lemma filterChanges_subseteq changes s e : filterChanges changes s e ⊆ changes.
Proof.
  unfold filterChanges. destruct s, e; try done.
  intros c. rewrite list_elem_of_filter. tauto.
Qed.

Lemma elem_of_identifyOfferEvents event changes :
  event ∈ identifyOfferEvents changes ↔
  ∃ change, change ∈ changes
    ∧ classify change = Some (Offer.offer_type event)
    ∧ event = toOffer change (Offer.offer_type event).
Proof.
  rewrite identifyOfferEvents_omap, list_elem_of_omap. unfold offerOf.
  split.
  - intros (c & Hc & Hev). destruct (classify c) as [ty|] eqn:Hty; simplify_eq/=.
    eauto.
  - intros (c & Hc & Hty & ->). exists c. by rewrite Hty.
Qed.

Lemma elem_of_offerEvents lc changes s e event :
  event ∈ offerEvents (countOfferEvents lc changes s e) →
  event ∈ identifyOfferEvents (filterChanges changes s e).
Proof.
  rewrite offerEvents_unfold. intros Hin.
  apply (sublist_subseteq _ _ (keptFrom_sublist _ _)) in Hin.
  unfold sortedOfferEvents in Hin. by rewrite Array_sort_Permutation in Hin.
Qed.

(** C1. The classifier assigns [direct] exactly to the records that enter
    "ACQ - Offers Made"; failing that, [implicit_not_accepted] exactly to the
    records that enter "ACQ - Offer Not Accepted" from a stage of
    PRE_OFFER_STAGES; failing that, [implicit_contract_sent] exactly to the
    records that enter "ACQ - Contract Sent" from a stage of PRE_OFFER_STAGES;
    every other record is no offer event.  Every event of the output comes
    from an input record that the classifier gave that offer type, so records
    that are no offer events are absent from the output. *)
Theorem classifier_priority_rules :
  (∀ change,
     let stageTo := Change.stage_to change in
     let stageFrom := Change.stage_from change in
     (classify change = Some direct ↔ stageTo = Some OFFERS_MADE_STAGE)
     ∧ (classify change = Some implicit_not_accepted ↔
          stageTo ≠ Some OFFERS_MADE_STAGE
          ∧ stageTo = Some OFFER_NOT_ACCEPTED_STAGE ∧ preOffer stageFrom)
     ∧ (classify change = Some implicit_contract_sent ↔
          stageTo ≠ Some OFFERS_MADE_STAGE
          ∧ ¬ (stageTo = Some OFFER_NOT_ACCEPTED_STAGE ∧ preOffer stageFrom)
          ∧ stageTo = Some CONTRACT_SENT_STAGE ∧ preOffer stageFrom)
     ∧ (classify change = None ↔
          stageTo ≠ Some OFFERS_MADE_STAGE
          ∧ ¬ (stageTo = Some OFFER_NOT_ACCEPTED_STAGE ∧ preOffer stageFrom)
          ∧ ¬ (stageTo = Some CONTRACT_SENT_STAGE ∧ preOffer stageFrom)))
  ∧ (∀ changes, identifyOfferEvents changes = omap offerOf changes)
  ∧ (∀ lc changes s e event,
       event ∈ offerEvents (countOfferEvents lc changes s e) →
       ∃ change, change ∈ changes
         ∧ classify change = Some (Offer.offer_type event)
         ∧ event = toOffer change (Offer.offer_type event)).
Proof.
  split; [|split].
  - intros change. simpl.
    auto using classify_direct, classify_implicit_not_accepted,
      classify_implicit_contract_sent, classify_not_offer.
  - apply identifyOfferEvents_omap.
  - intros lc changes s e event Hin.
    apply elem_of_offerEvents, elem_of_identifyOfferEvents in Hin.
    destruct Hin as (c & Hc & Hty & Hev). exists c.
    split; [by apply (filterChanges_subseteq changes s e)|done].
Qed.

(** ** Records that are no offer events leave no trace *)

Lemma filterChanges_app l1 l2 s e :
  filterChanges (l1 ++ l2) s e = filterChanges l1 s e ++ filterChanges l2 s e.
Proof. unfold filterChanges. destruct s, e; try done. apply filter_app. Qed.

Lemma identifyOfferEvents_app l1 l2 :
  identifyOfferEvents (l1 ++ l2) = identifyOfferEvents l1 ++ identifyOfferEvents l2.
Proof. rewrite !identifyOfferEvents_omap. apply omap_app. Qed.

Lemma identifyOfferEvents_filter_singleton change s e :
  classify change = None → identifyOfferEvents (filterChanges [change] s e) = [].
Proof.
  intros Hc. unfold filterChanges.
  assert (identifyOfferEvents [change] = []) as Hone.
  { rewrite identifyOfferEvents_omap. simpl. unfold offerOf. by rewrite Hc. }
  destruct s as [s|], e as [e|]; try done.
  rewrite filter_cons, filter_nil. by destruct (decide _).
Qed.

Lemma not_offer_skipped lc before change after s e :
  classify change = None →
  countOfferEvents lc (before ++ change :: after) s e
  = countOfferEvents lc (before ++ after) s e.
Proof.
  intros Hc. unfold countOfferEvents.
  rewrite (cons_middle change), !filterChanges_app, !identifyOfferEvents_app.
  by rewrite identifyOfferEvents_filter_singleton.
Qed.

(** ** The date window *)

Lemma inDateRange_true startDate endDate change :
  inDateRange startDate endDate change = true ↔
  ∃ ts te t, startDate = Num ts ∧ endDate = Num te
    ∧ Change.changed_at change = Num t ∧ (ts ≤ t ≤ te)%Z.
Proof.
  unfold inDateRange, number_ge, number_le.
  rewrite andb_true_iff.
  destruct (Change.changed_at change) as [|t]; destruct startDate as [|ts];
    destruct endDate as [|te]; simpl;
    try (split; [by intros [? ?] | by intros (? & ? & ? & ? & ? & ? & ?)]).
  rewrite !bool_decide_eq_true. split.
  - intros [? ?]. by exists ts, te, t.
  - intros (? & ? & ? & [= ->] & [= ->] & [= ->] & ?). lia.
Qed.

(** C4. With both bounds given, the records are first restricted to those
    whose [changed_at] lies in the closed interval from [startDate] to
    [endDate], both ends included, and the result is that of the unbounded
    call on the restricted records. *)
Theorem window_self_contained lc changes startDate endDate :
  countOfferEvents lc changes (Some startDate) (Some endDate)
  = countOfferEvents lc
      (filter (λ change, inDateRange startDate endDate change) changes) None None
  ∧ (∀ change, inDateRange startDate endDate change = true ↔
       ∃ ts te t, startDate = Num ts ∧ endDate = Num te
         ∧ Change.changed_at change = Num t ∧ (ts ≤ t ≤ te)%Z).
Proof. split; [reflexivity | intros change; apply inDateRange_true]. Qed.

(** C9. On the empty input the result is count 0 with no events, whatever
    the bounds; the function is total, so no error arises. *)
Theorem empty_input lc startDate endDate :
  countOfferEvents lc [] startDate endDate = {| count := 0; offerEvents := [] |}.
Proof. by destruct startDate, endDate. Qed.

(** C10. With exactly one of the two bounds given no record is filtered out:
    the result is that of the call without bounds. *)
Theorem single_bound_ignored lc changes bound :
  countOfferEvents lc changes (Some bound) None = countOfferEvents lc changes None None
  ∧ countOfferEvents lc changes None (Some bound) = countOfferEvents lc changes None None.
Proof. by split. Qed.

(** C8. A record whose [stage_from] is null is never an implicit offer; it is
    a direct offer when it enters "ACQ - Offers Made"; and when it enters
    "ACQ - Offer Not Accepted" it contributes nothing: the result is the one
    obtained without the record. *)
Theorem null_stage_from_never_implicit change :
  Change.stage_from change = None →
  classify change ≠ Some implicit_not_accepted
  ∧ classify change ≠ Some implicit_contract_sent
  ∧ (Change.stage_to change = Some OFFERS_MADE_STAGE →
     classify change = Some direct)
  ∧ (Change.stage_to change = Some OFFER_NOT_ACCEPTED_STAGE →
     classify change = None
     ∧ ∀ lc before after s e,
         countOfferEvents lc (before ++ change :: after) s e
         = countOfferEvents lc (before ++ after) s e).
Proof.
  intros Hfrom.
  assert (¬ preOffer (Change.stage_from change)) as Hpre.
  { rewrite Hfrom. by intros (s & ? & ?). }
  rewrite classify_implicit_not_accepted, classify_implicit_contract_sent.
  split; [tauto|]. split; [tauto|]. split; [by apply classify_direct|].
  intros Hto.
  assert (classify change = None) as Hnone.
  { apply classify_not_offer. rewrite Hto. repeat split; try done; tauto. }
  split; [done|]. intros. by apply not_offer_skipped.
Qed.

Lemma null_stage_from_never_implicit_witness :
  Change.stage_from firstTransitionRejected = None
  ∧ classify firstTransitionRejected ≠ Some implicit_not_accepted
  ∧ count (countOfferEvents codeUnitCompare [firstTransitionRejected] None None)
    = 0%nat.
Proof.
  split; [reflexivity|].
  destruct (null_stage_from_never_implicit firstTransitionRejected eq_refl)
    as (Hna & _ & _ & Hskip).
  split; [exact Hna|].
  destruct (Hskip eq_refl) as [_ Heq].
  exact (f_equal count (Heq codeUnitCompare [] [] None None)).
Defined.

(** ** The walk of one lead *)

Lemma hoursDiff_ge_24_spec eventTime lastOfferTime :
  hoursDiff_ge_24 eventTime lastOfferTime = atLeast24hAfter eventTime lastOfferTime.
Proof.
  unfold hoursDiff_ge_24, atLeast24hAfter.
  destruct eventTime as [|t], lastOfferTime as [|k]; simpl; try done.
  apply bool_decide_ext. lia.
Qed.

Lemma Get_ordinary {V} (table : gmap string V) p :
  ordinaryId p →
  Get table p = match table !! p with Some v => Own v | None => Undefined end.
Proof.
  intros Hp. unfold Get. destruct (table !! p); [done|].
  by rewrite bool_decide_eq_false_2.
Qed.

Lemma Get_inherited {V} (table : gmap string V) p :
  ¬ ordinaryId p → table !! p = None → Get table p = Inherited.
Proof.
  intros Hp Hnone. unfold Get. rewrite Hnone.
  rewrite bool_decide_eq_true_2; [done|]. by apply dec_stable.
Qed.

Lemma keptFrom_ofLead p last events :
  ordinaryId p →
  filter (ofLead p) (keptFrom last events)
  = walkLead (last !! p) (filter (ofLead p) events).
Proof.
  intros Hord. revert last. induction events as [|ev events IH]; intros last; [done|].
  simpl keptFrom. rewrite (filter_cons (ofLead p) ev events).
  destruct (decide (ofLead p ev)) as [Hp|Hp]; unfold ofLead in Hp.
  - rewrite Hp, Get_ordinary by done. simpl walkLead.
    destruct (last !! p) as [k|] eqn:Hl.
    + rewrite <- hoursDiff_ge_24_spec. destruct (hoursDiff_ge_24 _ k).
      * rewrite filter_cons_True by done. by rewrite IH, lookup_insert_eq.
      * by rewrite IH, Hl.
    + rewrite filter_cons_True by done. by rewrite IH, lookup_insert_eq.
  - destruct (Get last (Offer.person_id ev)) as [k| |].
    + destruct (hoursDiff_ge_24 _ k).
      * rewrite filter_cons_False by done. by rewrite IH, lookup_insert_ne.
      * apply IH.
    + apply IH.
    + rewrite filter_cons_False by done. by rewrite IH, lookup_insert_ne.
Qed.

(** A lead whose id names a member of [Object.prototype] has no entry in the
    table, and none of its events is kept. *)
Lemma keptFrom_inherited p last events :
  ¬ ordinaryId p → last !! p = None →
  filter (ofLead p) (keptFrom last events) = [].
Proof.
  intros Hp. revert last. induction events as [|ev events IH]; intros last Hl; [done|].
  simpl keptFrom.
  destruct (decide (Offer.person_id ev = p)) as [->|Hne].
  - rewrite Get_inherited by done. by apply IH.
  - destruct (Get last (Offer.person_id ev)) as [k| |].
    + destruct (hoursDiff_ge_24 _ k); [|by apply IH].
      rewrite filter_cons_False by done. apply IH. by rewrite lookup_insert_ne.
    + by apply IH.
    + rewrite filter_cons_False by done. apply IH. by rewrite lookup_insert_ne.
Qed.

Lemma atLeast24hAfter_true t k :
  atLeast24hAfter t k = true ↔
  ∃ a b, t = Num a ∧ k = Num b ∧ (24 * 3600 * 1000 ≤ a - b)%Z.
Proof.
  unfold atLeast24hAfter. destruct t as [|a], k as [|b];
    try (split; [done | by intros (? & ? & ? & ? & ?)]).
  rewrite bool_decide_eq_true. split.
  - intros ?. exists a, b. repeat split; lia.
  - intros (? & ? & [= ->] & [= ->] & ?). lia.
Qed.

Lemma walkLead_spaced anchor events :
  Sorted apart24h (walkLead anchor events)
  ∧ headAfter anchor (walkLead anchor events).
Proof.
  revert anchor. induction events as [|ev events IH]; intros anchor; simpl.
  { split; [constructor | by destruct anchor]. }
  assert (Sorted apart24h (ev :: walkLead (Some (Offer.changed_at ev)) events))
    as Hkeep.
  { destruct (IH (Some (Offer.changed_at ev))) as [Hs Hh].
    constructor; [done|].
    destruct (walkLead _ events) as [|b l]; constructor.
    simpl in Hh. apply atLeast24hAfter_true in Hh as (tb & ta & ? & ? & ?).
    by exists ta, tb. }
  destruct anchor as [k|].
  - destruct (atLeast24hAfter (Offer.changed_at ev) k) eqn:Hk.
    + by split.
    + apply IH.
  - by split.
Qed.

(** C3. For every input and every lead, consecutive kept events of that lead,
    in output order, are at least 24 hours apart. *)
Theorem kept_events_24h_apart lc changes startDate endDate p :
  Sorted apart24h
    (filter (ofLead p) (offerEvents (countOfferEvents lc changes startDate endDate))).
Proof.
  rewrite offerEvents_unfold. destruct (decide (ordinaryId p)) as [Hp|Hp].
  - rewrite keptFrom_ofLead by done. apply walkLead_spaced.
  - rewrite keptFrom_inherited by done. constructor.
Qed.

(** ** The sort orders *)

Section SortFacts.
Context {A : Type} (cmp : A → A → number) (P : A → Prop).
Hypothesis le_trans :
  ∀ x y z, P x → P y → P z → sortLe cmp x y → sortLe cmp y z → sortLe cmp x z.
Hypothesis le_total : ∀ x y, P x → P y → sortLe cmp x y ∨ sortLe cmp y x.

Lemma sort_insert_sorted x l :
  P x → Forall P l → StronglySorted (sortLe cmp) l →
  StronglySorted (sortLe cmp) (sort_insert cmp x l).
Proof.
  intros Hx HP Hs. induction Hs as [|y l Hs IH Hy]; simpl.
  { by repeat constructor. }
  apply Forall_cons in HP as [HPy HPl].
  change (SortCompare cmp x y ≤ 0)%Z with (sortLe cmp x y). case_bool_decide as Hxy.
  - constructor; [by constructor|]. constructor; [done|].
    rewrite Forall_forall in Hy, HPl |- *. intros z Hz.
    apply (le_trans x y z); auto.
  - constructor; [by apply IH|].
    rewrite Forall_forall in Hy, HPl |- *. intros z Hz.
    rewrite sort_insert_Permutation in Hz. apply elem_of_cons in Hz as [->|Hz].
    + destruct (le_total x y Hx HPy); [contradiction|done].
    + by apply Hy.
Qed.

Lemma Array_sort_sorted l :
  Forall P l → StronglySorted (sortLe cmp) (Array_sort cmp l).
Proof.
  induction 1 as [|x l Hx HP IH]; simpl; [constructor|].
  apply sort_insert_sorted; [done| |done].
  by rewrite Array_sort_Permutation.
Qed.

End SortFacts.


(** ** The order of the comparator on offer events *)












(** ** One lead inside the sorted array *)

Lemma identifyOfferEvents_validTime changes :
  Forall parseable changes → Forall validTime (identifyOfferEvents changes).
Proof.
  rewrite !Forall_forall. intros Hall ev Hev.
  apply elem_of_identifyOfferEvents in Hev as (c & Hc & _ & ->).
  by apply Hall.
Qed.






(** ** Two offers of one lead *)








(** ** Permuted input *)










(** ** Malformed records *)

(** Without bounds, a direct offer whose [changed_at] does not parse is kept
    as the first event of its lead, and with its Invalid Date as anchor no
    later offer of that lead is kept. *)
Lemma malformed_record_counterexample :
  malformed undatedOffer
  ∧ classify undatedOffer = Some direct
  ∧ countOfferEvents codeUnitCompare [undatedOffer; offerAt "X" 0] None None
    = {| count := 1; offerEvents := [toOffer undatedOffer direct] |}
  ∧ countOfferEvents codeUnitCompare [offerAt "X" 0] None None
    = {| count := 1; offerEvents := [keptAt "X" 0] |}
  ∧ countOfferEvents codeUnitCompare
      [undatedOffer; offerAt "X" 0; offerAt "X" 40] None None
    = {| count := 1; offerEvents := [toOffer undatedOffer direct] |}
  ∧ countOfferEvents codeUnitCompare [offerAt "X" 0; offerAt "X" 40] None None
    = {| count := 2; offerEvents := [keptAt "X" 0; keptAt "X" 40] |}
  ∧ ¬ malformedSkipped codeUnitCompare.
Proof.
  split; [by right|]. do 5 (split; [reflexivity|]).
  intros Hskip.
  destruct (Hskip [] undatedOffer [] None None) as [Hclass _]; [by right|].
  discriminate Hclass.
Qed.

Lemma inDateRange_parseable s e change :
  inDateRange s e change = true → parseable change.
Proof. intros (ts & te & t & _ & _ & Ht & _)%inDateRange_true. unfold parseable. by rewrite Ht. Qed.

Lemma filterChanges_unparseable change s e :
  Change.changed_at change = NaN → filterChanges [change] (Some s) (Some e) = [].
Proof.
  intros Hnan. unfold filterChanges. rewrite filter_cons_False; [done|].
  intros Hin%Is_true_true%inDateRange_parseable. by apply Hin.
Qed.

Lemma unparseable_filtered lc before change after s e :
  Change.changed_at change = NaN →
  countOfferEvents lc (before ++ change :: after) (Some s) (Some e)
  = countOfferEvents lc (before ++ after) (Some s) (Some e).
Proof.
  intros Hnan. unfold countOfferEvents.
  rewrite (cons_middle change), !filterChanges_app.
  by rewrite filterChanges_unparseable.
Qed.

Lemma classify_None_stage_to change :
  Change.stage_to change = None → classify change = None.
Proof. intros Hto. apply classify_not_offer. rewrite Hto. by repeat split; [|intros [??]..]. Qed.

(** C7, amended.  A record without [stage_to] is no offer event and is
    skipped for every call; a record whose [changed_at] does not parse is
    skipped when both bounds are given.  In both cases the result is the one
    obtained without the record, and no event made from the record is in
    the output. *)
Theorem malformed_record_skipped lc before bad after s e :
  Change.stage_to bad = None
  ∨ (Change.changed_at bad = NaN ∧ is_Some s ∧ is_Some e) →
  (Change.stage_to bad = None → classify bad = None)
  ∧ countOfferEvents lc (before ++ bad :: after) s e
    = countOfferEvents lc (before ++ after) s e
  ∧ ∀ offerType,
      toOffer bad offerType
      ∉ offerEvents (countOfferEvents lc (before ++ bad :: after) s e).
Proof.
  intros Hbad. split; [apply classify_None_stage_to|]. split.
  - destruct Hbad as [Hto|(Hnan & [sd ->] & [ed ->])].
    + by apply not_offer_skipped, classify_None_stage_to.
    + by apply unparseable_filtered.
  - intros ty Hin. apply elem_of_offerEvents, elem_of_identifyOfferEvents in Hin.
    destruct Hin as (c & Hc & Hty & Hev). simpl in Hty.
    destruct Hbad as [Hto|(Hnan & [sd ->] & [ed ->])].
    + apply (f_equal Offer.stage_to) in Hev. simpl in Hev.
      rewrite classify_None_stage_to in Hty; [done|]. congruence.
    + apply (f_equal Offer.changed_at) in Hev. simpl in Hev.
      unfold filterChanges in Hc. apply list_elem_of_filter in Hc as [Hc _].
      apply Is_true_true, inDateRange_parseable in Hc. apply Hc. congruence.
Qed.

Lemma malformed_record_skipped_witness :
  countOfferEvents codeUnitCompare ([offerAt "X" 0] ++ noStageTo :: [offerAt "X" 40])
    None None
  = countOfferEvents codeUnitCompare ([offerAt "X" 0] ++ [offerAt "X" 40]) None None
  ∧ countOfferEvents codeUnitCompare ([] ++ undatedOffer :: [offerAt "X" 0])
      (Some (Num 0)) (Some (Num 1780000000000))
    = countOfferEvents codeUnitCompare ([] ++ [offerAt "X" 0])
        (Some (Num 0)) (Some (Num 1780000000000)).
Proof.
  split.
  - refine (proj1 (proj2 (malformed_record_skipped codeUnitCompare
      [offerAt "X" 0] noStageTo [offerAt "X" 40] None None _))).
    left. reflexivity.
  - refine (proj1 (proj2 (malformed_record_skipped codeUnitCompare
      [] undatedOffer [offerAt "X" 0] (Some (Num 0)) (Some (Num 1780000000000)) _))).
    right. split; [reflexivity|]. split; eexists; reflexivity.
Defined.

(** * Further functions: properties *)

(** ** Throwaway leads *)

Lemma isThrowawayLead_true change :
  isThrowawayLead change = true ↔
  (∃ s, Change.stage_from change = Some s ∧ s ∈ qualifiedStages)
  ∧ (∃ s, Change.stage_to change = Some s ∧ s ∈ throwawayStages).
Proof.
  unfold isThrowawayLead. by rewrite andb_true_iff, !Array_includes_true.
Qed.

Lemma qualifiedStages_preOffer s : s ∈ qualifiedStages → s ∈ PRE_OFFER_STAGES.
Proof.
  unfold qualifiedStages, PRE_OFFER_STAGES. rewrite !elem_of_cons.
  intros [->|[->|[->|Hnil]]]; [tauto..|]. by apply elem_of_nil in Hnil.
Qed.

Lemma throwawayStages_not_trigger s :
  s ∈ throwawayStages →
  s ≠ OFFERS_MADE_STAGE ∧ s ≠ OFFER_NOT_ACCEPTED_STAGE ∧ s ≠ CONTRACT_SENT_STAGE.
Proof.
  unfold throwawayStages. rewrite !elem_of_cons.
  intros [->|[->|[->|[->|Hnil]]]]; [done..|]. by apply elem_of_nil in Hnil.
Qed.

(** X1. A throwaway transition leaves a pre-offer stage and is never an
    offer event: the result of [countOfferEvents] is the one obtained without
    the record. *)
Theorem throwaway_never_offer change :
  isThrowawayLead change = true →
  preOffer (Change.stage_from change)
  ∧ classify change = None
  ∧ ∀ lc before after s e,
      countOfferEvents lc (before ++ change :: after) s e
      = countOfferEvents lc (before ++ after) s e.
Proof.
  intros [(f & Hf & Hfq) (t & Ht & Htt)]%isThrowawayLead_true.
  apply throwawayStages_not_trigger in Htt as (H1 & H2 & H3).
  assert (classify change = None) as Hnone.
  { apply classify_not_offer. rewrite Ht.
    repeat split; [congruence | intros [? _]; congruence | intros [? _]; congruence]. }
  split; [|split; [done|]].
  - exists f. split; [done|]. by apply qualifiedStages_preOffer.
  - intros. by apply not_offer_skipped.
Qed.

Lemma throwaway_never_offer_witness :
  isThrowawayLead qualifiedThenDead = true
  ∧ countOfferEvents codeUnitCompare ([offerAt "X" 0] ++ qualifiedThenDead :: []) None None
    = countOfferEvents codeUnitCompare ([offerAt "X" 0] ++ []) None None.
Proof.
  split; [reflexivity|].
  exact (proj2 (proj2 (throwaway_never_offer qualifiedThenDead eq_refl))
           codeUnitCompare [offerAt "X" 0] [] None None).
Defined.

(** ** Offer events of one Eastern date *)

Section OfferEventsForDate.
Context (eds : Z → string) (target : string).

Lemma foldl_pushIfOfferOnDate_None changes :
  foldl (λ acc change, offerEvents ← acc;
                       pushIfOfferOnDate eds target offerEvents change)
    None changes = None.
Proof. by induction changes. Qed.

Lemma foldl_pushIfOfferOnDate acc changes :
  foldl (λ acc change, offerEvents ← acc;
                       pushIfOfferOnDate eds target offerEvents change)
    (Some acc) changes
  = if decide (Forall parseable changes)
    then Some (acc ++ identifyOfferEvents (filter (onEasternDate eds target) changes))
    else None.
Proof.
  revert acc. induction changes as [|c changes IH]; intros acc.
  { cbn [foldl]. destruct (decide (Forall parseable [])) as [_|[]]; [|constructor].
    by rewrite app_nil_r. }
  cbn [foldl mbind option_bind]. unfold pushIfOfferOnDate at 2.
  destruct (formatEastern eds (Change.changed_at c)) as [ds|] eqn:Hfmt.
  - assert (parseable c) as Hc.
    { unfold parseable. intros Hnan. by rewrite Hnan in Hfmt. }
    assert (Forall parseable (c :: changes) ↔ Forall parseable changes) as Hall.
    { rewrite Forall_cons. tauto. }
    rewrite (decide_ext _ _ _ _ Hall), (filter_cons (onEasternDate eds target) c).
    destruct (decide (onEasternDate eds target c)) as [Hon|Hon];
      unfold onEasternDate in Hon; rewrite Hfmt in Hon.
    + rewrite bool_decide_eq_false_2 by (intros ?; congruence). rewrite IH.
      case_decide; [|done]. f_equal. rewrite !identifyOfferEvents_omap.
      unfold pushIfOffer. simpl. unfold offerOf.
      destruct (classify c); simpl; by rewrite <- ?app_assoc.
    + rewrite bool_decide_eq_true_2 by congruence. by rewrite IH.
  - rewrite foldl_pushIfOfferOnDate_None, decide_False; [done|].
    intros [Hc _]%Forall_cons. apply Hc.
    by destruct (Change.changed_at c).
Qed.

Lemma getOfferEventsForDate_unfold changes :
  getOfferEventsForDate eds changes target
  = if decide (Forall parseable changes)
    then Some (identifyOfferEvents (filter (onEasternDate eds target) changes))
    else None.
Proof. unfold getOfferEventsForDate. by rewrite foldl_pushIfOfferOnDate. Qed.

End OfferEventsForDate.

(** X2. [getOfferEventsForDate] ends in the RangeError of the date formatter
    exactly when some record of the input, offer or not and of whatever date,
    has a [changed_at] that does not parse. *)
Theorem getOfferEventsForDate_throws eds changes target :
  getOfferEventsForDate eds changes target = None
  ↔ ∃ change, change ∈ changes ∧ Change.changed_at change = NaN.
Proof.
  rewrite getOfferEventsForDate_unfold. case_decide as Hall.
  - split; [done|]. intros (c & Hc & Hnan). rewrite Forall_forall in Hall.
    by destruct (Hall c Hc).
  - split; [|done]. intros _. apply not_Forall_Exists in Hall; [|apply _].
    apply Exists_exists in Hall as (c & Hc & Hnan). exists c. split; [done|].
    unfold parseable in Hnan. by apply dec_stable in Hnan.
Qed.

(** X3. When every [changed_at] parses, [getOfferEventsForDate] returns, in
    input order and without deduplication, the offer events that the first
    loop of [countOfferEvents] makes from the records of the target date. *)
Theorem getOfferEventsForDate_value eds changes target :
  Forall parseable changes →
  getOfferEventsForDate eds changes target
  = Some (identifyOfferEvents (filter (onEasternDate eds target) changes)).
Proof. intros Hall. by rewrite getOfferEventsForDate_unfold, decide_True. Qed.

Lemma getOfferEventsForDate_value_witness :
  getOfferEventsForDate february2026
    [offerAt "X" 0; offerAt "X" 1; offerAt "Y" 20; qualifiedThenDead] "2026-02-01"
  = Some [keptAt "X" 0; keptAt "X" 1].
Proof.
  rewrite getOfferEventsForDate_value; [reflexivity|].
  repeat constructor; done.
Defined.

(** ** Kept events against the offer events of a date *)

Lemma filter_submseteq {A} (P : A → Prop) `{∀ x, Decision (P x)} (l1 l2 : list A) :
  l1 ⊆+ l2 → filter P l1 ⊆+ filter P l2.
Proof.
  induction 1 as [|x l1 l2 _ IH|x y l|x l1 l2 _ IH|l1 l2 l3 _ IH1 _ IH2].
  - done.
  - rewrite !(filter_cons P x). case_decide; [by constructor | done].
  - rewrite !(filter_cons P).
    repeat case_decide; try done. apply submseteq_swap.
  - rewrite !(filter_cons P x). case_decide; [by constructor | done].
  - by trans (filter P l2).
Qed.

Lemma omap_sublist {A B} (f : A → option B) (l1 l2 : list A) :
  l1 `sublist_of` l2 → omap f l1 `sublist_of` omap f l2.
Proof.
  induction 1 as [|x l1 l2 _ IH|x l1 l2 _ IH]; simpl; [done|..];
    destruct (f x); by try constructor.
Qed.

Lemma identifyOfferEvents_onEasternDate eds target changes :
  identifyOfferEvents (filter (onEasternDate eds target) changes)
  = filter (offerOnEasternDate eds target) (identifyOfferEvents changes).
Proof.
  rewrite !identifyOfferEvents_omap.
  induction changes as [|c changes IH]; [done|].
  rewrite (filter_cons (onEasternDate eds target) c).
  assert (∀ ev, offerOf c = Some ev →
            offerOnEasternDate eds target ev ↔ onEasternDate eds target c) as Hsame.
  { intros ev Hev. unfold offerOf in Hev. by destruct (classify c); simplify_eq/=. }
  destruct (decide (onEasternDate eds target c)) as [Hon|Hon];
    cbn [omap list_omap]; destruct (offerOf c) as [ev|] eqn:Hev; try done.
  - rewrite filter_cons_True by by apply Hsame. by rewrite IH.
  - rewrite filter_cons_False by by rewrite Hsame. done.
Qed.

Lemma offerEvents_submseteq lc changes s e :
  offerEvents (countOfferEvents lc changes s e) ⊆+ identifyOfferEvents changes.
Proof.
  rewrite offerEvents_unfold. trans (sortedOfferEvents lc changes s e).
  { apply sublist_submseteq, keptFrom_sublist. }
  unfold sortedOfferEvents. rewrite Array_sort_Permutation.
  apply sublist_submseteq. rewrite !identifyOfferEvents_omap. apply omap_sublist.
  unfold filterChanges. destruct s, e; try done. apply sublist_filter.
Qed.

(** X4. When every [changed_at] parses, the events that [countOfferEvents]
    keeps, under any bounds, and that fall on the target date are among the
    events that [getOfferEventsForDate] returns for that date, each as often;
    so the deduplicated count of a day never exceeds the length of that
    list. *)
Theorem kept_events_among_offer_events_for_date lc eds changes s e target :
  Forall parseable changes →
  ∃ raw,
    getOfferEventsForDate eds changes target = Some raw
    ∧ filter (offerOnEasternDate eds target)
        (offerEvents (countOfferEvents lc changes s e)) ⊆+ raw
    ∧ (length (filter (offerOnEasternDate eds target)
                 (offerEvents (countOfferEvents lc changes s e)))
       ≤ length raw)%nat.
Proof.
  intros Hall. eexists. split; [by rewrite getOfferEventsForDate_unfold, decide_True|].
  assert (filter (offerOnEasternDate eds target)
            (offerEvents (countOfferEvents lc changes s e))
          ⊆+ identifyOfferEvents (filter (onEasternDate eds target) changes)) as Hsub.
  { rewrite identifyOfferEvents_onEasternDate.
    apply filter_submseteq, offerEvents_submseteq. }
  split; [done|]. by apply submseteq_length.
Qed.

Lemma kept_events_among_offer_events_for_date_witness :
  (length (filter (offerOnEasternDate february2026 "2026-02-01")
             (offerEvents (countOfferEvents codeUnitCompare
                [offerAt "X" 0; offerAt "X" 1; offerAt "Y" 20] None None)))
   ≤ 2)%nat.
Proof.
  destruct (kept_events_among_offer_events_for_date codeUnitCompare february2026
    [offerAt "X" 0; offerAt "X" 1; offerAt "Y" 20] None None "2026-02-01")
    as (raw & Hraw & _ & Hlen).
  - repeat constructor; done.
  - injection Hraw as <-. exact Hlen.
Defined.

(** ** Daily buckets *)

Lemma foldl_add_from {A} (f : A → nat) (a : nat) (l : list A) :
  foldl (λ sum x, sum + f x) a l = a + foldl (λ sum x, sum + f x) 0 l.
Proof.
  revert a. induction l as [|x l IH]; intros a; simpl; [lia|].
  rewrite (IH (a + f x)), (IH (f x)). lia.
Qed.

Lemma reduceSum_cons field d dailyData :
  reduceSum field (d :: dailyData) = field d + reduceSum field dailyData.
Proof. unfold reduceSum. simpl. apply foldl_add_from. Qed.

Lemma reduceSum_fresh dailyData :
  freshBuckets dailyData →
  reduceSum Day.qualified dailyData = 0 ∧ reduceSum Day.offers dailyData = 0
  ∧ reduceSum Day.priceMotivated dailyData = 0
  ∧ reduceSum Day.throwawayLeads dailyData = 0.
Proof.
  induction 1 as [|d l (Hq & Ho & Hp & Ht) _ IH]; [done|].
  rewrite !reduceSum_cons, Hq, Ho, Hp, Ht. tauto.
Qed.

Section UpdateFound.
Context (update : Day.t → Day.t).
Hypothesis update_date : ∀ d, Day.date (update d) = Day.date d.

Lemma updateFound_dates dateStr dailyData :
  Day.date <$> updateFound dateStr update dailyData = Day.date <$> dailyData.
Proof.
  induction dailyData as [|d l IH]; [done|]. cbn [updateFound].
  case_bool_decide; rewrite !fmap_cons; [by rewrite update_date | by rewrite IH].
Qed.

Lemma reduceSum_updateFound_inc field dateStr dailyData :
  (∀ d, field (update d) = S (field d)) →
  reduceSum field (updateFound dateStr update dailyData)
  = reduceSum field dailyData + (if decide (hasBucket dailyData dateStr) then 1 else 0).
Proof.
  intros Hinc. induction dailyData as [|d l IH]; cbn [updateFound].
  { destruct (decide (hasBucket [] dateStr)) as [Hin|_]; [|done].
    by apply elem_of_nil in Hin. }
  assert (hasBucket (d :: l) dateStr ↔ Day.date d = dateStr ∨ hasBucket l dateStr)
    as Hcons.
  { unfold hasBucket. rewrite fmap_cons, elem_of_cons.
    split; (intros [Heq|?]; [left; by symmetry | by right]). }
  case_bool_decide as Hd; rewrite !reduceSum_cons.
  - rewrite Hinc. destruct (decide (hasBucket (d :: l) dateStr)) as [|[]]; [lia|].
    apply Hcons. by left.
  - rewrite IH.
    destruct (decide (hasBucket l dateStr)) as [Hin|Hin];
      destruct (decide (hasBucket (d :: l) dateStr)) as [Hin'|Hin']; try lia.
    + destruct Hin'. apply Hcons. by right.
    + apply Hcons in Hin' as [?|?]; done.
Qed.

Lemma reduceSum_updateFound_same field dateStr dailyData :
  (∀ d, field (update d) = field d) →
  reduceSum field (updateFound dateStr update dailyData) = reduceSum field dailyData.
Proof.
  intros Hsame. induction dailyData as [|d l IH]; simpl; [done|].
  case_bool_decide; rewrite !reduceSum_cons; by rewrite ?Hsame, ?IH.
Qed.

End UpdateFound.

Lemma dateBucketed_dates eds dailyData dailyData' d :
  Day.date <$> dailyData' = Day.date <$> dailyData →
  dateBucketed eds dailyData' d ↔ dateBucketed eds dailyData d.
Proof. intros Hd. unfold dateBucketed, hasBucket. by rewrite Hd. Qed.

Lemma length_filter_cons {A} (P : A → Prop) `{∀ x, Decision (P x)} x (l : list A) :
  length (filter P (x :: l)) = (if decide (P x) then 1 else 0) + length (filter P l).
Proof. rewrite filter_cons. by case_decide. Qed.

Lemma if_decide_and (A B : Prop) `{Decision A, Decision B} :
  (if decide (A ∧ B) then 1 else 0)
  = if decide A then (if decide B then 1 else 0) else 0.
Proof. repeat case_decide; tauto. Qed.

Lemma chart_conditions change :
  (strict_eq (Change.stage_to change) "ACQ - Qualified" = true ↔ chartQualified change)
  ∧ (strict_eq (Change.stage_to change) "ACQ - Price Motivated" = true
     ↔ chartPriceMotivated change)
  ∧ (chartQualified change → ¬ chartPriceMotivated change ∧ ¬ chartThrowaway change)
  ∧ (chartPriceMotivated change → ¬ chartThrowaway change).
Proof.
  unfold chartQualified, chartPriceMotivated, chartThrowaway.
  rewrite !strict_eq_true. repeat split; try tauto.
  - congruence.
  - intros [Ht _]. apply isThrowawayLead_true in Ht as [_ (s & Hs & Hin)].
    rewrite H in Hs. injection Hs as <-. unfold throwawayStages in Hin.
    rewrite !elem_of_cons in Hin.
    destruct Hin as [?|[?|[?|[?|Hnil]]]]; try done. by apply elem_of_nil in Hnil.
Qed.

(** The counters after one record of the loop of lines 686-717. *)
Lemma tallyChange_counts eds dailyData c :
  parseable c →
  ∃ days,
    tallyChange eds dailyData c = Some days
    ∧ Day.date <$> days = Day.date <$> dailyData
    ∧ reduceSum Day.qualified days
      = reduceSum Day.qualified dailyData
        + (if decide (changeBucketed eds dailyData c ∧ chartQualified c) then 1 else 0)
    ∧ reduceSum Day.priceMotivated days
      = reduceSum Day.priceMotivated dailyData
        + (if decide (changeBucketed eds dailyData c ∧ chartPriceMotivated c)
           then 1 else 0)
    ∧ reduceSum Day.throwawayLeads days
      = reduceSum Day.throwawayLeads dailyData
        + (if decide (changeBucketed eds dailyData c ∧ chartThrowaway c) then 1 else 0)
    ∧ reduceSum Day.offers days = reduceSum Day.offers dailyData.
Proof.
  intros Hc. destruct (Change.changed_at c) as [|t] eqn:Ht; [done|].
  assert (changeBucketed eds dailyData c ↔ hasBucket dailyData (eds t)) as Hb.
  { unfold changeBucketed, dateBucketed. by rewrite Ht. }
  rewrite !if_decide_and, !(decide_ext _ _ _ _ Hb).
  unfold tallyChange. rewrite Ht. cbn [formatEastern].
  destruct (chart_conditions c) as (HQ & HPM & HQx & HPMx).
  destruct (strict_eq (Change.stage_to c) "ACQ - Qualified") eqn:EQ.
  { assert (chartQualified c) as HcQ by by apply HQ.
    destruct (HQx HcQ) as [? ?]. eexists. split; [done|].
    split; [by apply updateFound_dates|].
    rewrite (reduceSum_updateFound_inc incQualified Day.qualified) by done.
    rewrite !(reduceSum_updateFound_same incQualified) by done.
    rewrite (decide_True (P:=chartQualified c)) by done.
    rewrite (decide_False (P:=chartPriceMotivated c)) by done.
    rewrite (decide_False (P:=chartThrowaway c)) by done.
    repeat split; repeat case_decide; lia. }
  assert (¬ chartQualified c) as HnQ by (by rewrite <- HQ).
  rewrite (decide_False (P:=chartQualified c)) by done.
  destruct (strict_eq (Change.stage_to c) "ACQ - Price Motivated") eqn:EPM.
  { assert (chartPriceMotivated c) as HcPM by by apply HPM.
    specialize (HPMx HcPM). eexists. split; [done|].
    split; [by apply updateFound_dates|].
    rewrite (reduceSum_updateFound_inc incPriceMotivated Day.priceMotivated)
      by done.
    rewrite !(reduceSum_updateFound_same incPriceMotivated) by done.
    rewrite (decide_True (P:=chartPriceMotivated c)) by done.
    rewrite (decide_False (P:=chartThrowaway c)) by done.
    repeat split; repeat case_decide; lia. }
  assert (¬ chartPriceMotivated c) as HnPM by (by rewrite <- HPM).
  rewrite (decide_False (P:=chartPriceMotivated c)) by done.
  destruct (isThrowawayLead c) eqn:ET.
  { assert (chartThrowaway c) as HT by (split; [done|exact HnPM]).
    eexists. split; [done|]. split; [by apply updateFound_dates|].
    rewrite (reduceSum_updateFound_inc incThrowawayLeads Day.throwawayLeads)
      by done.
    rewrite !(reduceSum_updateFound_same incThrowawayLeads) by done.
    rewrite (decide_True (P:=chartThrowaway c)) by done.
    repeat split; repeat case_decide; lia. }
  assert (¬ chartThrowaway c) as HnT by (intros [? _]; congruence).
  rewrite (decide_False (P:=chartThrowaway c)) by done.
  eexists. split; [done|]. repeat split; repeat case_decide; lia.
Qed.

Lemma foldl_tallyChange_None eds changes :
  foldl (λ acc change, dailyData ← acc; tallyChange eds dailyData change)
    None changes = None.
Proof. by induction changes. Qed.

Lemma tallyStageChanges_counts eds dailyData changes :
  Forall parseable changes →
  ∃ days,
    tallyStageChanges eds dailyData changes = Some days
    ∧ Day.date <$> days = Day.date <$> dailyData
    ∧ reduceSum Day.qualified days
      = reduceSum Day.qualified dailyData
        + length (filter (λ c, changeBucketed eds dailyData c ∧ chartQualified c) changes)
    ∧ reduceSum Day.priceMotivated days
      = reduceSum Day.priceMotivated dailyData
        + length (filter (λ c, changeBucketed eds dailyData c ∧ chartPriceMotivated c)
                    changes)
    ∧ reduceSum Day.throwawayLeads days
      = reduceSum Day.throwawayLeads dailyData
        + length (filter (λ c, changeBucketed eds dailyData c ∧ chartThrowaway c) changes)
    ∧ reduceSum Day.offers days = reduceSum Day.offers dailyData.
Proof.
  unfold tallyStageChanges. intros Hall. revert dailyData.
  induction Hall as [|c changes Hc _ IH]; intros dailyData.
  { exists dailyData. simpl. repeat split; lia. }
  destruct (tallyChange_counts eds dailyData c Hc)
    as (days1 & Hstep & Hdates1 & HQ1 & HPM1 & HT1 & HO1).
  destruct (IH days1) as (days & Hrest & Hdates & HQ & HPM & HT & HO).
  exists days. cbn [foldl mbind option_bind]. rewrite Hstep.
  split; [done|]. split; [congruence|].
  assert (∀ (P : Change.t → Prop) `{∀ x, Decision (P x)},
    filter (λ c, changeBucketed eds days1 c ∧ P c) changes
    = filter (λ c, changeBucketed eds dailyData c ∧ P c) changes) as Hfilter.
  { intros P ?. apply list_filter_iff. intros x. unfold changeBucketed.
    by rewrite (dateBucketed_dates eds dailyData days1). }
  rewrite !Hfilter in *. rewrite !length_filter_cons.
  repeat split; lia.
Qed.

Lemma foldl_addOfferEvent_None eds events :
  foldl (λ acc offerEvent, dailyData ← acc; addOfferEvent eds dailyData offerEvent)
    None events = None.
Proof. by induction events. Qed.

Lemma addOfferEvents_counts eds dailyData events :
  Forall validTime events →
  ∃ days,
    addOfferEvents eds dailyData events = Some days
    ∧ Day.date <$> days = Day.date <$> dailyData
    ∧ reduceSum Day.offers days
      = reduceSum Day.offers dailyData
        + length (filter (offerBucketed eds dailyData) events)
    ∧ reduceSum Day.qualified days = reduceSum Day.qualified dailyData
    ∧ reduceSum Day.priceMotivated days = reduceSum Day.priceMotivated dailyData
    ∧ reduceSum Day.throwawayLeads days = reduceSum Day.throwawayLeads dailyData.
Proof.
  unfold addOfferEvents. intros Hall. revert dailyData.
  induction Hall as [|ev events Hev _ IH]; intros dailyData.
  { exists dailyData. simpl. repeat split; lia. }
  unfold validTime in Hev. destruct (Offer.changed_at ev) as [|t] eqn:Ht; [done|].
  assert (offerBucketed eds dailyData ev ↔ hasBucket dailyData (eds t)) as Hb.
  { unfold offerBucketed, dateBucketed. by rewrite Ht. }
  destruct (IH (updateFound (eds t) incOffers dailyData))
    as (days & Hrest & Hdates & HO & HQ & HPM & HT).
  exists days. cbn [foldl mbind option_bind]. unfold addOfferEvent at 2.
  rewrite Ht. cbn [formatEastern]. split; [done|].
  rewrite (updateFound_dates incOffers) in Hdates by done. split; [done|].
  rewrite (reduceSum_updateFound_inc incOffers Day.offers) in HO by done.
  rewrite !(reduceSum_updateFound_same incOffers) in HQ, HPM, HT by done.
  assert (filter (offerBucketed eds (updateFound (eds t) incOffers dailyData)) events
          = filter (offerBucketed eds dailyData) events) as Hfilter.
  { apply list_filter_iff. intros x. unfold offerBucketed.
    apply dateBucketed_dates. by apply updateFound_dates. }
  rewrite Hfilter in HO. rewrite length_filter_cons, (decide_ext _ _ _ _ Hb).
  repeat split; try done. lia.
Qed.

Lemma length_filter_impl {A} (P Q : A → Prop)
    `{∀ x, Decision (P x), ∀ x, Decision (Q x)} (l : list A) :
  (∀ x, P x → Q x) → (length (filter P l) ≤ length (filter Q l))%nat.
Proof.
  intros HPQ. induction l as [|x l IH]; [done|].
  rewrite !length_filter_cons. repeat case_decide; try lia. naive_solver.
Qed.

Lemma length_filter_Forall {A} (P : A → Prop) `{∀ x, Decision (P x)} (l : list A) :
  Forall P l → length (filter P l) = length l.
Proof.
  induction 1 as [|x l Hx _ IH]; [done|].
  rewrite length_filter_cons, decide_True by done. simpl. lia.
Qed.

Lemma offerEvents_validTime lc changes s e :
  Forall parseable changes →
  Forall validTime (offerEvents (countOfferEvents lc changes s e)).
Proof.
  intros Hall. apply identifyOfferEvents_validTime in Hall.
  rewrite Forall_forall in Hall |- *. intros ev Hev. apply Hall.
  apply (elem_of_submseteq _ _ _ Hev), offerEvents_submseteq.
Qed.

Lemma dailyMetrics_unfold lc eds dailyData changes :
  Forall parseable changes →
  ∃ tallied days,
    tallyStageChanges eds dailyData changes = Some tallied
    ∧ addOfferEvents eds tallied (offerEvents (countOfferEvents lc changes None None))
      = Some days
    ∧ dailyMetrics lc eds dailyData changes
      = Some (count (countOfferEvents lc changes None None), days).
Proof.
  intros Hall.
  destruct (tallyStageChanges_counts eds dailyData changes Hall) as (tallied & Ht & _).
  destruct (addOfferEvents_counts eds tallied
    (offerEvents (countOfferEvents lc changes None None))) as (days & Hd & _).
  { by apply offerEvents_validTime. }
  exists tallied, days. split; [done|]. split; [done|].
  unfold dailyMetrics. rewrite Ht. cbn [mbind option_bind]. by rewrite Hd.
Qed.

(** X5. In [processSupabaseData], when every record of the requested period
    parses and the day buckets start empty, the offers of the day chart add
    up to the number of kept offer events whose Eastern date has a bucket.
    The chart never shows more offers than the summary's [offersTotal], and
    shows as many when every kept event's date has a bucket. *)
Theorem daily_offers_against_total lc eds dailyData changes :
  Forall parseable changes → freshBuckets dailyData →
  let kept := offerEvents (countOfferEvents lc changes None None) in
  let offersTotal := count (countOfferEvents lc changes None None) in
  ∃ days,
    dailyMetrics lc eds dailyData changes = Some (offersTotal, days)
    ∧ Day.date <$> days = Day.date <$> dailyData
    ∧ reduceSum Day.offers days = length (filter (offerBucketed eds dailyData) kept)
    ∧ (reduceSum Day.offers days ≤ offersTotal)%nat
    ∧ (Forall (offerBucketed eds dailyData) kept →
       reduceSum Day.offers days = offersTotal).
Proof.
  intros Hall Hfresh kept offersTotal.
  destruct (dailyMetrics_unfold lc eds dailyData changes Hall)
    as (tallied & days & Ht & Hd & Hm).
  destruct (tallyStageChanges_counts eds dailyData changes Hall)
    as (tallied' & Ht' & Hdates1 & _ & _ & _ & HO1).
  rewrite Ht in Ht'. injection Ht' as <-.
  destruct (addOfferEvents_counts eds tallied kept) as (days' & Hd' & Hdates2 & HO2 & _).
  { by apply offerEvents_validTime. }
  unfold kept in Hd'. rewrite Hd in Hd'. injection Hd' as <-.
  destruct (reduceSum_fresh dailyData Hfresh) as (_ & Hzero & _).
  assert (filter (offerBucketed eds tallied) kept
          = filter (offerBucketed eds dailyData) kept) as Hfilter.
  { apply list_filter_iff. intros x. by apply dateBucketed_dates. }
  rewrite Hfilter, HO1, Hzero in HO2. simpl in HO2.
  exists days. split; [done|]. split; [congruence|]. split; [done|].
  rewrite HO2. unfold offersTotal. rewrite count_unfold. fold kept.
  split; [apply length_filter|]. apply length_filter_Forall.
Qed.

Lemma daily_offers_against_total_witness :
  ∃ days,
    dailyMetrics codeUnitCompare february2026 februaryBuckets
      [offerAt "X" 0; offerAt "X" 1; offerAt "Y" 20; offerAt "Z" 30;
       qualifiedThenDead]
    = Some (3, days)
    ∧ (reduceSum Day.offers days ≤ 3)%nat.
Proof.
  destruct (daily_offers_against_total codeUnitCompare february2026 februaryBuckets
    [offerAt "X" 0; offerAt "X" 1; offerAt "Y" 20; offerAt "Z" 30; qualifiedThenDead])
    as (days & Hm & _ & _ & Hle & _).
  - repeat constructor; done.
  - repeat constructor.
  - exists days. split; [exact Hm | exact Hle].
Defined.

(** X6. Under the same conditions the day chart counts, among the records
    whose Eastern date has a bucket: as qualified those that enter
    "ACQ - Qualified"; as price motivated those that enter
    "ACQ - Price Motivated"; as throwaway the throwaway transitions that do
    not enter "ACQ - Price Motivated".  So [throwawayTotal] never exceeds
    [throwawayForDateRange] (line 1094), which counts every throwaway
    transition of the period. *)
Theorem daily_tallies lc eds dailyData changes :
  Forall parseable changes → freshBuckets dailyData →
  ∃ offersTotal days,
    dailyMetrics lc eds dailyData changes = Some (offersTotal, days)
    ∧ reduceSum Day.qualified days
      = length (filter (λ c, changeBucketed eds dailyData c ∧ chartQualified c) changes)
    ∧ reduceSum Day.priceMotivated days
      = length (filter (λ c, changeBucketed eds dailyData c ∧ chartPriceMotivated c)
                  changes)
    ∧ reduceSum Day.throwawayLeads days
      = length (filter (λ c, changeBucketed eds dailyData c ∧ chartThrowaway c) changes)
    ∧ (reduceSum Day.throwawayLeads days
       ≤ length (filter (λ c, isThrowawayLead c = true) changes))%nat.
Proof.
  intros Hall Hfresh.
  destruct (dailyMetrics_unfold lc eds dailyData changes Hall)
    as (tallied & days & Ht & Hd & Hm).
  destruct (tallyStageChanges_counts eds dailyData changes Hall)
    as (tallied' & Ht' & _ & HQ1 & HPM1 & HT1 & _).
  rewrite Ht in Ht'. injection Ht' as <-.
  destruct (addOfferEvents_counts eds tallied
    (offerEvents (countOfferEvents lc changes None None)))
    as (days' & Hd' & _ & _ & HQ2 & HPM2 & HT2).
  { by apply offerEvents_validTime. }
  rewrite Hd in Hd'. injection Hd' as <-.
  destruct (reduceSum_fresh dailyData Hfresh) as (HzQ & _ & HzPM & HzT).
  rewrite HzQ in HQ1. rewrite HzPM in HPM1. rewrite HzT in HT1. simpl in *.
  eexists _, days. split; [exact Hm|].
  rewrite HQ2, HPM2, HT2, HQ1, HPM1, HT1. repeat split.
  apply length_filter_impl. by intros c [_ [? _]].
Qed.

Lemma daily_tallies_witness :
  ∃ offersTotal days,
    dailyMetrics codeUnitCompare february2026 februaryBuckets
      [qualifiedThenPriceMotivated; qualifiedThenDead; offerAt "X" 0]
    = Some (offersTotal, days)
    ∧ reduceSum Day.throwawayLeads days = 1
    ∧ reduceSum Day.priceMotivated days = 1
    ∧ length (filter (λ c, isThrowawayLead c = true)
                [qualifiedThenPriceMotivated; qualifiedThenDead; offerAt "X" 0]) = 2.
Proof.
  destruct (daily_tallies codeUnitCompare february2026 februaryBuckets
    [qualifiedThenPriceMotivated; qualifiedThenDead; offerAt "X" 0])
    as (total & days & Hm & _ & HPM & HT & _).
  - repeat constructor; done.
  - repeat constructor.
  - exists total, days. split; [exact Hm|]. split; [exact HT|]. split; [exact HPM|].
    reflexivity.
Defined.

(** ** Week starts and business days *)

Section HostDateFacts.
Context (LocalTime UTC : Z → Z) (monthStart : Z → Z).
(** A local time converted to UTC and back is itself: the host's offset is
    fixed, or the local time does not fall into a clock change. *)
Hypothesis LocalTime_UTC : ∀ t, LocalTime (UTC t) = t.

Lemma Day_MakeDate day time :
  (0 ≤ time < msPerDay)%Z → Day (MakeDate day time) = day.
Proof.
  intros Htime. unfold Day, MakeDate, msPerDay in *.
  symmetry. apply (Z.div_unique _ _ _ time); lia.
Qed.

Lemma TimeWithinDay_range t : (0 ≤ TimeWithinDay t < msPerDay)%Z.
Proof. unfold TimeWithinDay, msPerDay. apply Z.mod_pos_bound. lia. Qed.

Lemma setDate_getDate_shift d k :
  setDate LocalTime UTC monthStart d (getDate LocalTime monthStart d + k)
  = UTC (MakeDate (Day (LocalTime d) + k) (TimeWithinDay (LocalTime d))).
Proof.
  unfold setDate, getDate, MakeDayInMonth, DateFromTime. f_equal. f_equal. lia.
Qed.

(** The local day on which the week of local day [D] starts. *)
Lemma getWeekStart_unfold date :
  getWeekStart LocalTime UTC monthStart date
  = UTC (MakeDate (Day (LocalTime date) - (Day (LocalTime date) + 3) `mod` 7) 0).
Proof.
  unfold getWeekStart, setHoursZero.
  replace (getDate LocalTime monthStart date
           - (getDay LocalTime date + 6) `mod` 7)%Z
    with (getDate LocalTime monthStart date
          + - ((getDay LocalTime date + 6) `mod` 7))%Z by lia.
  rewrite setDate_getDate_shift, LocalTime_UTC.
  rewrite Day_MakeDate by apply TimeWithinDay_range.
  f_equal. f_equal. unfold getDay, WeekDay.
  rewrite Zplus_mod_idemp_l. replace (Day (LocalTime date) + 4 + 6)%Z
    with (Day (LocalTime date) + 3 + 1 * 7)%Z by lia.
  rewrite Z_mod_plus_full. lia.
Qed.

End HostDateFacts.

(** X7. Where local times convert to UTC and back unchanged, [getWeekStart]
    returns a Monday at local midnight, on the local day of its argument or
    at most six days before it. *)
Theorem getWeekStart_monday LocalTime UTC monthStart date :
  (∀ t, LocalTime (UTC t) = t) →
  let weekStart := getWeekStart LocalTime UTC monthStart date in
  getDay LocalTime weekStart = 1%Z
  ∧ TimeWithinDay (LocalTime weekStart) = 0%Z
  ∧ (Day (LocalTime weekStart) ≤ Day (LocalTime date)
     ≤ Day (LocalTime weekStart) + 6)%Z.
Proof.
  intros Hhost weekStart. unfold weekStart.
  rewrite (getWeekStart_unfold _ _ _ Hhost). unfold getDay, WeekDay.
  rewrite Hhost, Day_MakeDate by (unfold msPerDay; lia).
  unfold TimeWithinDay, MakeDate, msPerDay.
  generalize (Day (LocalTime date)). intros D.
  repeat split; Z.div_mod_to_equations; lia.
Qed.

Lemma getWeekStart_monday_witness :
  getDay estLocalTime (getWeekStart estLocalTime estUTC monthStart2026 1770000000000)
  = 1%Z.
Proof.
  refine (proj1 (getWeekStart_monday estLocalTime estUTC monthStart2026
                   1770000000000 _)).
  intros t. unfold estLocalTime, estUTC. lia.
Defined.

(** X8. Under the same condition [getWeekStart] maps a week start to
    itself, and two Dates have the same week start exactly when the second
    lies, in local days, within the seven days that begin at the week start
    of the first. *)
Theorem getWeekStart_same_week LocalTime UTC monthStart date1 date2 :
  (∀ t, LocalTime (UTC t) = t) →
  let weekStart := getWeekStart LocalTime UTC monthStart in
  weekStart (weekStart date1) = weekStart date1
  ∧ (weekStart date1 = weekStart date2
     ↔ (Day (LocalTime (weekStart date1)) ≤ Day (LocalTime date2)
        ≤ Day (LocalTime (weekStart date1)) + 6)%Z).
Proof.
  intros Hhost weekStart. unfold weekStart.
  rewrite !(getWeekStart_unfold _ _ _ Hhost).
  rewrite !Hhost, !Day_MakeDate by (unfold msPerDay; lia).
  generalize (Day (LocalTime date1)) (Day (LocalTime date2)). intros D1 D2.
  split.
  - assert (D1 - (D1 + 3) `mod` 7 - (D1 - (D1 + 3) `mod` 7 + 3) `mod` 7
            = D1 - (D1 + 3) `mod` 7)%Z as -> by (Z.div_mod_to_equations; lia).
    done.
  - split.
    + intros Heq. apply (f_equal LocalTime) in Heq. rewrite !Hhost in Heq.
      assert (D1 - (D1 + 3) `mod` 7 = D2 - (D2 + 3) `mod` 7)%Z as Hday
        by (unfold MakeDate, msPerDay in Heq; lia).
      clear Heq. Z.div_mod_to_equations; lia.
    + intros Hin.
      assert (D1 - (D1 + 3) `mod` 7 = D2 - (D2 + 3) `mod` 7)%Z as ->
        by (Z.div_mod_to_equations; lia).
      done.
Qed.

Lemma getWeekStart_same_week_witness :
  getWeekStart estLocalTime estUTC monthStart2026 1770000000000
  = getWeekStart estLocalTime estUTC monthStart2026 1769500000000.
Proof.
  apply (getWeekStart_same_week estLocalTime estUTC monthStart2026
           1770000000000 1769500000000).
  - intros t. unfold estLocalTime, estUTC. lia.
  - vm_compute. split; discriminate.
Defined.

(** The loop of [getBusinessDays] from a given count. *)
Lemma businessDays_foldl_from {A} (counts : A → bool) (a : nat) (l : list A) :
  foldl (λ businessDays i, if counts i then S businessDays else businessDays) a l
  = a + foldl (λ businessDays i, if counts i then S businessDays else businessDays) 0 l.
Proof.
  revert a. induction l as [|x l IH]; intros a; simpl; [lia|].
  destruct (counts x); rewrite (IH _); [rewrite (IH 1)|]; lia.
Qed.

Lemma businessDays_foldl_le {A} (counts : A → bool) (l : list A) :
  (foldl (λ businessDays i, if counts i then S businessDays else businessDays) 0 l
   ≤ length l)%nat.
Proof.
  induction l as [|x l IH]; simpl; [lia|].
  destruct (counts x); [rewrite businessDays_foldl_from|]; lia.
Qed.

(** X9. [getBusinessDays] never exceeds the number of days of the range,
    the span in days rounded up, and is 0 when the end is not after the
    start. *)
Theorem getBusinessDays_bounds LocalTime UTC monthStart startDate endDate :
  (Z.of_nat (getBusinessDays LocalTime UTC monthStart startDate endDate)
   ≤ Z.max 0 (- ((- (endDate - startDate)) `div` msPerDay)))%Z
  ∧ ((endDate ≤ startDate)%Z →
     getBusinessDays LocalTime UTC monthStart startDate endDate = 0).
Proof.
  unfold getBusinessDays.
  change (1000 * 60 * 60 * 24)%Z with msPerDay.
  set (totalDays := (- ((- (endDate - startDate)) `div` msPerDay))%Z).
  split.
  - pose proof (businessDays_foldl_le
      (λ i, bool_decide
              (getDay LocalTime
                 (setDate LocalTime UTC monthStart startDate
                    (getDate LocalTime monthStart startDate + i)) ≠ 0%Z)
            && bool_decide
                 (getDay LocalTime
                    (setDate LocalTime UTC monthStart startDate
                       (getDate LocalTime monthStart startDate + i)) ≠ 6%Z))
      (seqZ 0 totalDays)) as Hle.
    rewrite length_seqZ in Hle. cbv zeta. lia.
  - intros Hrev. rewrite seqZ_nil; [done|].
    unfold totalDays, msPerDay. Z.div_mod_to_equations; lia.
Qed.

Lemma week_of_days_has_five (r m : Z) :
  foldl (λ businessDays i,
           if bool_decide ((r + i) `mod` 7 ≠ 0)%Z && bool_decide ((r + i) `mod` 7 ≠ 6)%Z
           then S businessDays else businessDays) 0 (seqZ m 7)
  = 5.
Proof.
  assert (seqZ m 7 = [m; m + 1; m + 2; m + 3; m + 4; m + 5; m + 6]%Z) as ->.
  { unfold seqZ. simpl. repeat (apply (f_equal2 cons); [lia|]). done. }
  assert (∀ j, ((r + (m + j)) `mod` 7 = ((r + m) `mod` 7 + j) `mod` 7)%Z) as Hmod.
  { intros j. rewrite Z.add_assoc. by rewrite Zplus_mod_idemp_l. }
  replace (r + m)%Z with (r + (m + 0))%Z by lia.
  simpl. rewrite !Hmod.
  pose proof (Z.mod_pos_bound (r + m) 7 ltac:(lia)) as Hr.
  assert ((r + m) `mod` 7 = 0 ∨ (r + m) `mod` 7 = 1 ∨ (r + m) `mod` 7 = 2
          ∨ (r + m) `mod` 7 = 3 ∨ (r + m) `mod` 7 = 4 ∨ (r + m) `mod` 7 = 5
          ∨ (r + m) `mod` 7 = 6)%Z as Hcases by lia.
  destruct Hcases as [->|[->|[->|[->|[->|[->| ->]]]]]]; reflexivity.
Qed.

Lemma whole_weeks_of_days (r : Z) (n : nat) :
  foldl (λ businessDays i,
           if bool_decide ((r + i) `mod` 7 ≠ 0)%Z && bool_decide ((r + i) `mod` 7 ≠ 6)%Z
           then S businessDays else businessDays) 0 (seqZ 0 (7 * Z.of_nat n))
  = 5 * n.
Proof.
  induction n as [|n IH]; [done|].
  replace (7 * Z.of_nat (S n))%Z with (7 * Z.of_nat n + 7)%Z by lia.
  rewrite seqZ_app, foldl_app, IH by lia.
  rewrite businessDays_foldl_from, week_of_days_has_five. lia.
Qed.

Lemma foldl_ext_all {A B} (f g : A → B → A) (a : A) (l : list B) :
  (∀ a x, f a x = g a x) → foldl f a l = foldl g a l.
Proof.
  intros Hfg. revert a. induction l as [|x l IH]; intros a; simpl; [done|].
  by rewrite Hfg, IH.
Qed.

(** X10. Where local times convert to UTC and back unchanged, a range of
    exactly [n] weeks has [5 * n] business days, on whatever weekday and at
    whatever time of day it starts. *)
Theorem getBusinessDays_whole_weeks LocalTime UTC monthStart startDate endDate
    (n : nat) :
  (∀ t, LocalTime (UTC t) = t) →
  (endDate - startDate = 7 * Z.of_nat n * msPerDay)%Z →
  getBusinessDays LocalTime UTC monthStart startDate endDate = 5 * n.
Proof.
  intros Hhost Hspan. unfold getBusinessDays.
  change (1000 * 60 * 60 * 24)%Z with msPerDay.
  assert ((- ((- (endDate - startDate)) `div` msPerDay))%Z = (7 * Z.of_nat n)%Z)
    as ->.
  { rewrite Hspan.
    replace (- (7 * Z.of_nat n * msPerDay))%Z
      with ((- (7 * Z.of_nat n)) * msPerDay)%Z by lia.
    rewrite Z.div_mul by (unfold msPerDay; lia). lia. }
  rewrite <- (whole_weeks_of_days (Day (LocalTime startDate) + 4) n).
  apply foldl_ext_all. intros businessDays i. cbv zeta.
  rewrite (setDate_getDate_shift _ _ _ startDate i). unfold getDay, WeekDay.
  rewrite Hhost, Day_MakeDate by apply TimeWithinDay_range.
  by replace (Day (LocalTime startDate) + i + 4)%Z
    with (Day (LocalTime startDate) + 4 + i)%Z by lia.
Qed.

Lemma getBusinessDays_whole_weeks_witness :
  getBusinessDays estLocalTime estUTC monthStart2026 1769922000000 1771131600000 = 10.
Proof.
  apply (getBusinessDays_whole_weeks estLocalTime estUTC monthStart2026
           1769922000000 1771131600000 2).
  - intros t. unfold estLocalTime, estUTC. lia.
  - reflexivity.
Defined.

(** ** Average time to offer *)

Lemma foldr_min_spec (t : Z) (rest : list Z) :
  let m := foldr Z.min t rest in
  (m = t ∨ m ∈ rest) ∧ (m ≤ t)%Z ∧ ∀ x, x ∈ rest → (m ≤ x)%Z.
Proof.
  induction rest as [|y rest IH]; simpl.
  { split; [by left|]. split; [lia|]. intros x Hx. by apply elem_of_nil in Hx. }
  destruct IH as ([Hm|Hm] & Hle & Hall);
    (split; [|split; [lia|]]).
  - destruct (Z.min_spec y (foldr Z.min t rest)) as [[_ ->]|[_ ->]];
      [right; left | by left].
  - intros x [->|Hx]%elem_of_cons; [lia|]. specialize (Hall x Hx). lia.
  - destruct (Z.min_spec y (foldr Z.min t rest)) as [[_ ->]|[_ ->]];
      [right; left | right; by right].
  - intros x [->|Hx]%elem_of_cons; [lia|]. specialize (Hall x Hx). lia.
Qed.

Lemma earliest_spec (times : list Z) (m : Z) :
  earliest times = Some m ↔ m ∈ times ∧ ∀ x, x ∈ times → (m ≤ x)%Z.
Proof.
  destruct times as [|t rest]; simpl.
  { split; [done|]. intros [Hin _]. by apply elem_of_nil in Hin. }
  destruct (foldr_min_spec t rest) as (Hm & Hle & Hall). split.
  - intros [= <-]. split.
    + destruct Hm as [->|Hm]; [left | by right].
    + intros x [->|Hx]%elem_of_cons; [done | by apply Hall].
  - intros [Hin Hmin]. f_equal. apply Z.le_antisymm.
    + apply elem_of_cons in Hin as [->|Hin]; [done | by apply Hall].
    + apply Hmin. destruct Hm as [->|Hm]; [left | by right].
Qed.

Lemma earliest_Permutation (l l' : list Z) : l ≡ₚ l' → earliest l = earliest l'.
Proof.
  intros Hperm. destruct (earliest l) as [m|] eqn:Hm.
  - symmetry. apply earliest_spec. apply earliest_spec in Hm as [Hin Hmin].
    split; [by rewrite <- Hperm|]. intros x Hx. apply Hmin. by rewrite Hperm.
  - destruct l as [|t rest]; [|done]. apply Permutation_nil_l in Hperm. by subst.
Qed.

Lemma byTimestamp_trans a b c :
  validEntry a → validEntry b → validEntry c →
  sortLe byTimestamp a b → sortLe byTimestamp b c → sortLe byTimestamp a c.
Proof.
  unfold validEntry, sortLe, SortCompare, byTimestamp.
  destruct (Journey.timestamp a), (Journey.timestamp b), (Journey.timestamp c);
    simpl; try done. lia.
Qed.

Lemma byTimestamp_total a b : sortLe byTimestamp a b ∨ sortLe byTimestamp b a.
Proof.
  unfold sortLe, SortCompare, byTimestamp.
  destruct (Journey.timestamp a), (Journey.timestamp b); simpl; lia.
Qed.

Lemma journey_sorted journey :
  Forall validEntry journey →
  StronglySorted (sortLe byTimestamp) (Array_sort byTimestamp journey).
Proof.
  apply Array_sort_sorted.
  - apply byTimestamp_trans.
  - intros x y _ _. apply byTimestamp_total.
Qed.

(** In a journey sorted by time, the first "ACQ - Qualified" entry carries
    the earliest qualification time. *)
Lemma firstQualified_sorted journey :
  Forall validEntry journey → StronglySorted (sortLe byTimestamp) journey →
  firstQualified journey = Num <$> earliest (journeyQualifiedTimes journey).
Proof.
  intros Hval Hs. induction Hs as [|x l Hs IH Hx]; [done|].
  apply Forall_cons in Hval as [Hvx Hvl]. simpl. unfold journeyQualifiedTimes.
  cbn [omap list_omap]. destruct (strict_eq (Journey.stage x) "ACQ - Qualified").
  - unfold validEntry in Hvx. destruct (Journey.timestamp x) as [|tx] eqn:Htx; [done|].
    fold (journeyQualifiedTimes l). simpl. f_equal. f_equal.
    destruct (foldr_min_spec tx (journeyQualifiedTimes l)) as ([Hm|Hm] & Hle & _);
      [done|].
    apply Z.le_antisymm; [|done].
    set (m := foldr Z.min tx (journeyQualifiedTimes l)) in *.
    unfold journeyQualifiedTimes in Hm. apply list_elem_of_omap in Hm as (y & Hy & Hm).
    rewrite Forall_forall in Hx, Hvl. specialize (Hx y Hy). specialize (Hvl y Hy).
    unfold sortLe, SortCompare, byTimestamp, validEntry in Hx, Hvl. rewrite Htx in Hx.
    destruct (strict_eq (Journey.stage y) "ACQ - Qualified"); [|done].
    destruct (Journey.timestamp y) as [|ty]; [done|]. simpl in Hx.
    injection Hm as Hm. lia.
  - by apply IH.
Qed.

Lemma addToJourney_ordinary lj change :
  ordinaryId (Change.person_id change) →
  ∃ lj', addToJourney lj change = Some lj'
    ∧ ∀ p, lj' !! p
           = if decide (ofPerson p change)
             then Some (default [] (lj !! p) ++ [journeyEntry change])
             else lj !! p.
Proof.
  intros Hord. unfold addToJourney. rewrite (Get_ordinary lj) by done.
  destruct (lj !! Change.person_id change) as [j|] eqn:Hj.
  - rewrite Get_ordinary, Hj by done. eexists. split; [done|].
    intros p. unfold ofPerson. case_decide as Hp.
    + subst p. by rewrite lookup_insert_eq, Hj.
    + by rewrite lookup_insert_ne.
  - rewrite Get_ordinary, lookup_insert_eq by done. eexists. split; [done|].
    intros p. unfold ofPerson. case_decide as Hp.
    + subst p. by rewrite lookup_insert_eq, Hj.
    + by rewrite !lookup_insert_ne.
Qed.

Lemma addToJourney_inherited lj change :
  ¬ ordinaryId (Change.person_id change) → ordinaryKeys lj →
  addToJourney lj change = None.
Proof.
  intros Hp Hkeys. unfold addToJourney.
  by rewrite !(Get_inherited lj) by auto.
Qed.

Lemma forEach_addToJourney lj changes :
  ordinaryIds changes →
  ∃ lj', forEach addToJourney lj changes = Some lj'
    ∧ ∀ p, lj' !! p
           = match filter (ofPerson p) changes with
             | [] => lj !! p
             | l => Some (default [] (lj !! p) ++ (journeyEntry <$> l))
             end.
Proof.
  intros Hord. revert lj. induction Hord as [|c changes Hc Hord IH]; intros lj.
  { by exists lj. }
  destruct (addToJourney_ordinary lj c Hc) as (lj1 & Hstep & Hlook).
  destruct (IH lj1) as (lj' & Hrest & Hlook').
  exists lj'. cbn [forEach]. rewrite Hstep. split; [done|].
  intros p. rewrite Hlook', Hlook, (filter_cons (ofPerson p) c).
  case_decide as Hp; [|done]. simpl.
  destruct (filter (ofPerson p) changes) as [|c' l]; [done|].
  by rewrite <- app_assoc.
Qed.

Lemma forEach_addToJourney_journeysOf changes :
  ordinaryIds changes →
  ∃ lj, forEach addToJourney ∅ changes = Some lj ∧ journeysOf changes lj.
Proof.
  intros Hord. destruct (forEach_addToJourney ∅ changes Hord) as (lj & Hlj & Hlook).
  exists lj. split; [done|]. intros p. rewrite Hlook, lookup_empty.
  by destruct (filter (ofPerson p) changes).
Qed.

Lemma forEach_addToJourney_throws lj changes :
  ordinaryKeys lj → ¬ ordinaryIds changes →
  forEach addToJourney lj changes = None.
Proof.
  revert lj. induction changes as [|c changes IH]; intros lj Hkeys Hnot.
  { destruct Hnot. constructor. }
  cbn [forEach]. destruct (decide (ordinaryId (Change.person_id c))) as [Hc|Hc].
  - destruct (addToJourney_ordinary lj c Hc) as (lj1 & -> & Hlook).
    apply IH.
    + intros p Hp. rewrite Hlook. unfold ofPerson. case_decide as Heq.
      * by rewrite <- Heq in Hp.
      * by apply Hkeys.
    + intros Hrest. apply Hnot. by constructor.
  - by rewrite addToJourney_inherited.
Qed.

Lemma journeyQualifiedTimes_group changes p :
  journeyQualifiedTimes (journeyEntry <$> filter (ofPerson p) changes)
  = qualifiedTimes changes p.
Proof.
  unfold journeyQualifiedTimes, qualifiedTimes.
  induction changes as [|c changes IH]; [done|].
  rewrite (filter_cons (ofPerson p) c). cbn [omap list_omap].
  unfold ofPerson at 1. case_decide as Hp.
  - rewrite fmap_cons. cbn [omap list_omap]. rewrite IH. simpl.
    destruct (strict_eq (Change.stage_to c) "ACQ - Qualified") eqn:Hq.
    + apply strict_eq_true in Hq. by rewrite bool_decide_eq_true_2.
    + apply strict_eq_false in Hq. rewrite bool_decide_eq_false_2; [done|tauto].
  - rewrite IH. rewrite bool_decide_eq_false_2; [done|tauto].
Qed.

Lemma group_validEntry changes p :
  Forall parseable changes →
  Forall validEntry (journeyEntry <$> filter (ofPerson p) changes).
Proof.
  intros Hall. apply Forall_fmap. apply Forall_forall. intros c Hc.
  apply list_elem_of_filter in Hc as [_ Hc]. rewrite Forall_forall in Hall.
  by apply Hall.
Qed.

(** The journey of the lead of a record of the data, whatever the order
    earlier sorts left it in. *)
Lemma sameJourneys_lookup changes lj0 lj offer :
  journeysOf changes lj0 → sameJourneys lj lj0 → offer ∈ changes →
  ∃ journey,
    lj !! Change.person_id offer = Some journey
    ∧ journey ≡ₚ journeyEntry <$> filter (ofPerson (Change.person_id offer)) changes.
Proof.
  intros Hof Hsame Hin. specialize (Hsame (Change.person_id offer)).
  rewrite Hof in Hsame.
  destruct (filter (ofPerson (Change.person_id offer)) changes) as [|c l] eqn:Hf.
  { assert (offer ∈ filter (ofPerson (Change.person_id offer)) changes) as Hin'
      by by apply list_elem_of_filter.
    rewrite Hf in Hin'. by apply elem_of_nil in Hin'. }
  inversion Hsame as [journey ? Hperm|]; subst. by exists journey.
Qed.

Lemma Get_own {V} (table : gmap string V) p v :
  table !! p = Some v → Get table p = Own v.
Proof. intros Hv. unfold Get. by rewrite Hv. Qed.

Lemma timeToOfferStep_sinceQualified changes lj0 lj acc offer :
  Forall parseable changes →
  journeysOf changes lj0 → sameJourneys lj lj0 → offer ∈ changes →
  ∃ lj',
    timeToOfferStep {| leadJourneys := lj; timesToOffer := acc |} offer
    = Some {| leadJourneys := lj';
              timesToOffer := acc ++ option_list (sinceQualified changes offer) |}
    ∧ sameJourneys lj' lj0.
Proof.
  intros Hall Hof Hsame Hin.
  destruct (sameJourneys_lookup changes lj0 lj offer Hof Hsame Hin)
    as (journey & Hj & Hperm).
  pose proof (group_validEntry changes (Change.person_id offer) Hall) as Hval.
  rewrite <- Hperm in Hval.
  assert (Forall validEntry (Array_sort byTimestamp journey)) as Hval'
    by by rewrite Array_sort_Permutation.
  exists (<[Change.person_id offer := Array_sort byTimestamp journey]> lj). split.
  - unfold timeToOfferStep. cbn [leadJourneys timesToOffer].
    rewrite (Get_own _ _ _ Hj). f_equal. f_equal.
    rewrite (firstQualified_sorted _ Hval' (journey_sorted _ Hval)).
    assert (earliest (journeyQualifiedTimes (Array_sort byTimestamp journey))
            = earliest (qualifiedTimes changes (Change.person_id offer))) as ->.
    { rewrite <- journeyQualifiedTimes_group. apply earliest_Permutation.
      unfold journeyQualifiedTimes. by rewrite Array_sort_Permutation, Hperm. }
    unfold sinceQualified. rewrite Forall_forall in Hall. specialize (Hall offer Hin).
    unfold parseable in Hall. destruct (Change.changed_at offer) as [|t]; [done|].
    destruct (earliest _) as [q|]; simpl; [|by rewrite app_nil_r].
    rewrite (bool_decide_ext (0 ≤ t - q)%Z (q ≤ t)%Z) by lia.
    case_bool_decide; simpl; by rewrite ?app_nil_r.
  - intros p. destruct (decide (p = Change.person_id offer)) as [->|Hp].
    + rewrite lookup_insert_eq. specialize (Hsame (Change.person_id offer)).
      rewrite Hj in Hsame. inversion Hsame as [? j0 Hj0|]; subst.
      constructor. by rewrite Array_sort_Permutation.
    + rewrite lookup_insert_ne by done. apply Hsame.
Qed.

Lemma forEach_timeToOfferStep changes lj0 lj acc offers :
  Forall parseable changes →
  journeysOf changes lj0 → sameJourneys lj lj0 → offers ⊆ changes →
  ∃ st,
    forEach timeToOfferStep {| leadJourneys := lj; timesToOffer := acc |} offers
    = Some st
    ∧ timesToOffer st = acc ++ omap (sinceQualified changes) offers.
Proof.
  intros Hall Hof. revert lj acc.
  induction offers as [|offer offers IH]; intros lj acc Hsame Hsub.
  { eexists. split; [done|]. simpl. by rewrite app_nil_r. }
  destruct (timeToOfferStep_sinceQualified changes lj0 lj acc offer Hall Hof Hsame)
    as (lj' & Hstep & Hsame'); [apply Hsub; left|].
  destruct (IH lj' (acc ++ option_list (sinceQualified changes offer)) Hsame')
    as (st & Hrest & Htimes).
  { intros x Hx. apply Hsub. by right. }
  exists st. cbn [forEach]. rewrite Hstep. split; [done|].
  rewrite Htimes, <- app_assoc. f_equal. simpl.
  by destruct (sinceQualified changes offer).
Qed.

(** X11. When every [changed_at] parses and no lead id names a member of
    [Object.prototype], [calculateAvgTimeToOffer] returns, and its mean is
    taken over the offers, in input order, whose lead entered
    "ACQ - Qualified" at or before the offer, each with the time since the
    lead's earliest qualification; without such an offer it returns 0. *)
Theorem calculateAvgTimeToOffer_earliest_qualification changes :
  Forall parseable changes → ordinaryIds changes →
  calculateAvgTimeToOffer changes
  = Some
      match omap (sinceQualified changes)
              (filter (λ change, strict_eq (Change.stage_to change) "ACQ - Offers Made")
                 changes) with
      | [] => ReturnsZero
      | times => RoundedMean times
      end.
Proof.
  intros Hall Hord. unfold calculateAvgTimeToOffer.
  set (offers := filter _ changes).
  case_bool_decide as Hlen.
  { apply length_zero_iff_nil in Hlen. by rewrite Hlen. }
  destruct (forEach_addToJourney_journeysOf changes Hord) as (lj & -> & Hof).
  destruct (forEach_timeToOfferStep changes lj lj [] offers Hall Hof)
    as (st & -> & ->).
  - intros p. destruct (_ !! p); by constructor.
  - intros x Hx. by apply list_elem_of_filter in Hx as [_ ?].
  - simpl. destruct (omap _ offers); [done|]. by rewrite bool_decide_eq_false_2.
Qed.

Lemma calculateAvgTimeToOffer_earliest_qualification_witness :
  calculateAvgTimeToOffer
    [offerAt "X" 50; qualifiedAt "X" 10; qualifiedAt "X" 0; offerAt "Y" 5;
     qualifiedAt "Y" 20]
  = Some (RoundedMean [180000000%Z]).
Proof.
  rewrite calculateAvgTimeToOffer_earliest_qualification; [reflexivity| |].
  - repeat constructor; done.
  - repeat constructor; apply (bool_decide_unpack _); by vm_compute.
Defined.

Lemma timeToOfferStep_times st offer :
  match timeToOfferStep st offer with
  | None => True
  | Some st' =>
      timesToOffer st' = timesToOffer st
      ∨ ∃ d, (0 ≤ d)%Z ∧ timesToOffer st' = timesToOffer st ++ [d]
  end.
Proof.
  unfold timeToOfferStep.
  destruct (Get (leadJourneys st) (Change.person_id offer)) as [journey| |];
    [|done|by left].
  cbn [timesToOffer]. destruct (firstQualified _) as [q|]; [|by left].
  destruct (number_sub _ q) as [|d]; [by left|].
  case_bool_decide; [right; by exists d | by left].
Qed.

Lemma forEach_timeToOfferStep_times st offers :
  Forall (λ d, 0 ≤ d)%Z (timesToOffer st) →
  match forEach timeToOfferStep st offers with
  | None => True
  | Some st' =>
      Forall (λ d, 0 ≤ d)%Z (timesToOffer st')
      ∧ (length (timesToOffer st') ≤ length (timesToOffer st) + length offers)%nat
  end.
Proof.
  revert st. induction offers as [|offer offers IH]; intros st Hst; cbn [forEach].
  { split; [done|lia]. }
  pose proof (timeToOfferStep_times st offer) as Hstep.
  destruct (timeToOfferStep st offer) as [st1|]; [|done].
  assert (Forall (λ d, 0 ≤ d)%Z (timesToOffer st1)
          ∧ (length (timesToOffer st1) ≤ length (timesToOffer st) + 1)%nat)
    as [Hpos1 Hlen1].
  { destruct Hstep as [->|(d & Hd & ->)]; [split; [done|lia]|].
    split; [apply Forall_app; split; [done|by constructor]|].
    rewrite length_app. simpl. lia. }
  specialize (IH st1 Hpos1).
  destruct (forEach timeToOfferStep st1 offers) as [st'|]; [|done].
  destruct IH as [Hpos Hlen]. split; [done|]. cbn [length]. lia.
Qed.

(** X12. Whatever the input, when [calculateAvgTimeToOffer] returns a mean
    it is the mean of at least one time difference, of no more differences
    than there are records entering "ACQ - Offers Made", and of no negative
    difference. *)
Theorem calculateAvgTimeToOffer_mean_of changes :
  match calculateAvgTimeToOffer changes with
  | Some (RoundedMean times) =>
      times ≠ []
      ∧ Forall (λ d, 0 ≤ d)%Z times
      ∧ (length times
         ≤ length (filter (λ change,
                             strict_eq (Change.stage_to change) "ACQ - Offers Made")
                     changes))%nat
  | Some ReturnsZero | None => True
  end.
Proof.
  unfold calculateAvgTimeToOffer. set (offers := filter _ changes).
  case_bool_decide as Hoffers; [done|].
  destruct (forEach addToJourney ∅ changes) as [lj|]; [|done].
  set (st0 := {| leadJourneys := lj; timesToOffer := [] |}).
  pose proof (forEach_timeToOfferStep_times st0 offers) as Htimes.
  destruct (forEach timeToOfferStep st0 offers) as [st|]; [|done].
  destruct Htimes as [Hpos Hlen]; [constructor|].
  case_bool_decide as Hnone; [done|].
  split; [|split; [done|exact Hlen]].
  intros Hnil. by rewrite Hnil in Hnone.
Qed.

Lemma firstQualified_None journey :
  Forall (λ entry, Journey.stage entry ≠ Some "ACQ - Qualified") journey →
  firstQualified journey = None.
Proof.
  induction 1 as [|x l Hx _ IH]; [done|]. simpl.
  by rewrite (proj2 (strict_eq_false _ _) Hx).
Qed.

Lemma neverQualified_group changes lj :
  (∀ change, change ∈ changes → Change.stage_to change ≠ Some "ACQ - Qualified") →
  journeysOf changes lj → neverQualified lj.
Proof.
  intros Hnone Hof p journey Hj. rewrite Hof in Hj.
  destruct (filter (ofPerson p) changes) as [|c l] eqn:Hf; [done|].
  injection Hj as <-.
  rewrite <- fmap_cons, <- Hf. apply Forall_fmap, Forall_forall.
  intros x [_ Hx]%list_elem_of_filter. by apply Hnone.
Qed.

Lemma forEach_timeToOfferStep_neverQualified lj acc offers :
  neverQualified lj →
  match
    forEach timeToOfferStep {| leadJourneys := lj; timesToOffer := acc |} offers
  with
  | None => True
  | Some st => timesToOffer st = acc
  end.
Proof.
  revert lj. induction offers as [|offer offers IH]; intros lj Hnever; [done|].
  cbn [forEach]. unfold timeToOfferStep at 1. cbn [leadJourneys timesToOffer].
  unfold Get. destruct (lj !! Change.person_id offer) as [journey|] eqn:Hj.
  - assert (Forall (λ entry, Journey.stage entry ≠ Some "ACQ - Qualified")
              (Array_sort byTimestamp journey)) as Hsorted.
    { rewrite Array_sort_Permutation. by apply (Hnever _ _ Hj). }
    rewrite (firstQualified_None _ Hsorted). apply IH.
    intros p j. destruct (decide (p = Change.person_id offer)) as [->|Hp].
    + rewrite lookup_insert_eq. by intros [= <-].
    + rewrite lookup_insert_ne by done. apply Hnever.
  - case_bool_decide; [done|]. by apply IH.
Qed.

Lemma forEach_timeToOfferStep_returns st offers :
  ordinaryIds offers → is_Some (forEach timeToOfferStep st offers).
Proof.
  intros Hord. revert st. induction Hord as [|offer offers Ho Hord IH]; intros st.
  { by eexists. }
  cbn [forEach]. unfold timeToOfferStep. rewrite Get_ordinary by done.
  destruct (leadJourneys st !! Change.person_id offer); apply IH.
Qed.

Lemma filter_none {A} (P : A → Prop) `{∀ x, Decision (P x)} (l : list A) :
  (∀ x, x ∈ l → ¬ P x) → filter P l = [].
Proof.
  induction l as [|x l IH]; intros Hnone; [done|].
  rewrite filter_cons_False by (apply Hnone; left).
  apply IH. intros y Hy. apply Hnone. by right.
Qed.

(** X13. [calculateAvgTimeToOffer] returns 0 when no record of the data
    enters "ACQ - Offers Made"; and, provided no lead id names a member of
    [Object.prototype], when no record enters "ACQ - Qualified". *)
Theorem calculateAvgTimeToOffer_zero changes :
  (∀ change, change ∈ changes → Change.stage_to change ≠ Some "ACQ - Offers Made")
  ∨ (ordinaryIds changes
     ∧ ∀ change, change ∈ changes →
         Change.stage_to change ≠ Some "ACQ - Qualified") →
  calculateAvgTimeToOffer changes = Some ReturnsZero.
Proof.
  intros [Hnone|[Hord Hnone]]; unfold calculateAvgTimeToOffer.
  - rewrite filter_none; [done|]. intros c Hc Hoffer.
    apply Is_true_true, strict_eq_true in Hoffer. by apply (Hnone c Hc).
  - case_bool_decide; [done|].
    destruct (forEach_addToJourney_journeysOf changes Hord) as (lj & -> & Hof).
    set (offers := filter _ changes).
    pose proof (forEach_timeToOfferStep_neverQualified lj [] offers
                  (neverQualified_group changes lj Hnone Hof)) as Htimes.
    destruct (forEach_timeToOfferStep_returns
                {| leadJourneys := lj; timesToOffer := [] |} offers) as [st Hst].
    { unfold ordinaryIds, offers in *. rewrite Forall_forall in Hord |- *.
      intros c [_ Hc]%list_elem_of_filter. by apply Hord. }
    rewrite Hst in Htimes |- *. by rewrite Htimes.
Qed.

Lemma calculateAvgTimeToOffer_zero_witness :
  calculateAvgTimeToOffer [offerAt "X" 50; offerAt "Y" 5; qualifiedThenDead]
  = Some ReturnsZero.
Proof.
  apply calculateAvgTimeToOffer_zero. right. split.
  - repeat constructor; apply (bool_decide_unpack _); by vm_compute.
  - intros change Hin. repeat (apply elem_of_cons in Hin as [->|Hin]; [done|]).
    by apply elem_of_nil in Hin.
Defined.

(** X16. [calculateAvgTimeToOffer] ends in a TypeError exactly when some
    record enters "ACQ - Offers Made" and some record, of whatever stage and
    lead, has a lead id that names a member of [Object.prototype]. *)
Theorem calculateAvgTimeToOffer_throws changes :
  calculateAvgTimeToOffer changes = None
  ↔ (∃ change, change ∈ changes
       ∧ Change.stage_to change = Some "ACQ - Offers Made")
    ∧ (∃ change, change ∈ changes ∧ ¬ ordinaryId (Change.person_id change)).
Proof.
  unfold calculateAvgTimeToOffer. set (offers := filter _ changes).
  assert (∀ change, change ∈ offers ↔
            change ∈ changes ∧ Change.stage_to change = Some "ACQ - Offers Made")
    as Hoffers.
  { intros c. unfold offers. by rewrite list_elem_of_filter, Is_true_true, strict_eq_true, (comm and). }
  case_bool_decide as Hlen.
  { apply length_zero_iff_nil in Hlen. split; [done|].
    intros [(c & Hc) _]. apply Hoffers in Hc. rewrite Hlen in Hc.
    by apply elem_of_nil in Hc. }
  assert (∃ change, change ∈ changes
            ∧ Change.stage_to change = Some "ACQ - Offers Made") as Hsome.
  { destruct offers as [|c l] eqn:Heq; [done|]. exists c. apply Hoffers. left. }
  destruct (decide (ordinaryIds changes)) as [Hord|Hord].
  - destruct (forEach_addToJourney_journeysOf changes Hord) as (lj & -> & _).
    destruct (forEach_timeToOfferStep_returns
                {| leadJourneys := lj; timesToOffer := [] |} offers) as [st ->].
    { unfold ordinaryIds in *. rewrite Forall_forall in Hord |- *.
      intros c [Hc _]%Hoffers. by apply Hord. }
    split.
    + by case_bool_decide.
    + intros [_ (c & Hc & Hnot)]. unfold ordinaryIds in Hord.
      rewrite Forall_forall in Hord. destruct Hnot. by apply Hord.
  - rewrite forEach_addToJourney_throws; [|done|done].
    split; [|done]. intros _. split; [done|].
    apply not_Forall_Exists in Hord; [|apply _].
    apply Exists_exists in Hord as (c & Hc & Hnot). by exists c.
Qed.

(** ** Leads and counts *)

Lemma walkLead_None_cons event rest :
  walkLead None (event :: rest) = event :: walkLead (Some (Offer.changed_at event)) rest.
Proof. reflexivity. Qed.

Lemma length_omap_le {A B} (f : A → option B) (l : list A) :
  (length (omap f l) ≤ length l)%nat.
Proof.
  induction l as [|x l IH]; [done|]. cbn [omap list_omap].
  destruct (f x); cbn [length]; lia.
Qed.

(** X14. Whatever the input and the bounds, a lead whose id is not the
    name of a member of [Object.prototype] has a kept event exactly when it
    has an offer event among the filtered records: deduplication never drops
    such a lead altogether.  A lead whose id is such a name has no kept
    event.  The count is at most the number of offer events, itself at most
    the number of records. *)
Theorem every_lead_with_offer_counted lc changes s e :
  (∀ p,
     ordinaryId p →
     (∃ event, event ∈ identifyOfferEvents (filterChanges changes s e)
               ∧ Offer.person_id event = p)
     ↔ (∃ event, event ∈ offerEvents (countOfferEvents lc changes s e)
                 ∧ Offer.person_id event = p))
  ∧ (∀ event, event ∈ offerEvents (countOfferEvents lc changes s e) →
       ordinaryId (Offer.person_id event))
  ∧ (count (countOfferEvents lc changes s e)
     ≤ length (identifyOfferEvents (filterChanges changes s e)))%nat
  ∧ (length (identifyOfferEvents (filterChanges changes s e)) ≤ length changes)%nat.
Proof.
  split; [|split; [|split]].
  - intros p Hord. split.
    + intros (ev & Hev & Hp).
      assert (ev ∈ filter (ofLead p) (sortedOfferEvents lc changes s e)) as Hin.
      { apply list_elem_of_filter. split; [done|].
        unfold sortedOfferEvents. by rewrite Array_sort_Permutation. }
      pose proof (keptFrom_ofLead p ∅ (sortedOfferEvents lc changes s e) Hord)
        as Hwalk.
      rewrite lookup_empty, <- offerEvents_unfold in Hwalk.
      destruct (filter (ofLead p) (sortedOfferEvents lc changes s e))
        as [|first rest]; [by apply elem_of_nil in Hin|].
      rewrite walkLead_None_cons in Hwalk.
      assert (first ∈ filter (ofLead p) (offerEvents (countOfferEvents lc changes s e)))
        as Hfirst by (rewrite Hwalk; left).
      apply list_elem_of_filter in Hfirst as [Hlead Hfirst]. by exists first.
    + intros (ev & Hev & Hp). exists ev. split; [|done].
      by apply elem_of_offerEvents in Hev.
  - intros ev Hev. apply dec_stable. intros Hnot.
    assert (ev ∈ filter (ofLead (Offer.person_id ev))
                   (offerEvents (countOfferEvents lc changes s e))) as Hin
      by by apply list_elem_of_filter.
    rewrite offerEvents_unfold, keptFrom_inherited in Hin by done.
    by apply elem_of_nil in Hin.
  - rewrite count_unfold, offerEvents_unfold.
    etrans; [apply sublist_length, keptFrom_sublist|].
    unfold sortedOfferEvents. by rewrite Array_sort_Permutation.
  - rewrite identifyOfferEvents_omap.
    etrans; [apply length_omap_le|]. unfold filterChanges.
    destruct s, e; try done. apply length_filter.
Qed.

Lemma every_lead_with_offer_counted_witness :
  ordinaryId "Y"
  ∧ ∃ event,
      event ∈ offerEvents (countOfferEvents codeUnitCompare
                             [offerAt "X" 0; offerAt "Y" 5; offerAt "X" 3] None None)
      ∧ Offer.person_id event = "Y".
Proof.
  assert (ordinaryId "Y") as Hord by (apply (bool_decide_unpack _); by vm_compute).
  split; [exact Hord|].
  apply (proj1 (every_lead_with_offer_counted codeUnitCompare
                  [offerAt "X" 0; offerAt "Y" 5; offerAt "X" 3] None None) "Y" Hord).
  exists (keptAt "Y" 5). split; [|reflexivity].
  apply (bool_decide_unpack _). by vm_compute.
Defined.

(** ** A window inside a window *)

(** X15. Counting within bounds over records that an earlier date filter
    already restricted, as [processSupabaseData] does for the week counts,
    is counting the original records within the intersection of the two
    windows. *)
Theorem nested_windows_intersect lc changes (s e s' e' : Z) :
  countOfferEvents lc
    (filter (λ change, inDateRange (Num s) (Num e) change) changes)
    (Some (Num s')) (Some (Num e'))
  = countOfferEvents lc changes
      (Some (Num (Z.max s s'))) (Some (Num (Z.min e e'))).
Proof.
  unfold countOfferEvents, filterChanges. rewrite list_filter_filter.
  assert (filter (λ change, inDateRange (Num s') (Num e') change
                            ∧ inDateRange (Num s) (Num e) change) changes
          = filter (λ change, inDateRange (Num (Z.max s s')) (Num (Z.min e e')) change)
              changes) as ->; [|done].
  apply list_filter_iff. intros c. rewrite !Is_true_true, !inDateRange_true. split.
  - intros [(? & ? & t & [= <-] & [= <-] & Ht & ?)
            (? & ? & t' & [= <-] & [= <-] & Ht' & ?)].
    rewrite Ht in Ht'. injection Ht' as <-.
    exists (Z.max s s'), (Z.min e e'), t. repeat split; try done; lia.
  - intros (? & ? & t & [= <-] & [= <-] & Ht & ?).
    split; [exists s', e', t | exists s, e, t]; repeat split; try done; lia.
Qed.
